(** * dismob: logging, safe dispatch, colour parsing and view cleanup

    A shallow embedding of [dismob/log.py], [dismob/colors.py] and
    [dismob/utils.py], and the properties of these modules.

    Conventions of the embedding.
    - A Python [str] is a [string]; a character is the code point it
      carries, so the model covers the strings whose code points are below
      256.
    - A Python function that can raise and that reads or writes module or
      object state is a function from a state to an outcome ([Ok] or
      [Raise]) and a new state.
    - A call that leaves the repository for the network (the rate limiter,
      [ctx.send]) is answered by an oracle, a function of the calls made so
      far and of the call itself.
    - Of the libraries, the model has what the modules rely on: the
      loggers of [logging] with their hierarchy (parents, placeholders,
      [propagate]), as [Manager.getLogger] and [Logger.hasHandlers] keep
      and read it; the names of the colours [discord.Colour] defines, the
      values of these colours being a table taken as a parameter; and
      [discord.Client.persistent_views], a property that builds a new
      list of the stored views at each access. *)

From Stdlib Require Import ZArith NArith Ascii Bool Lia.
From Stdlib Require String.
From Stdlib Require Import Numbers.DecimalString.
From stdpp Require Import base option list gmap strings.

Local Open Scope Z_scope.

(* ===================================================================== *)
(** * The Python built-ins the source calls *)
(* ===================================================================== *)

Module Py.

Definition code (c : ascii) : N := N_of_ascii c.

Definition between (lo hi : N) (c : ascii) : bool :=
  (lo <=? code c)%N && (code c <=? hi)%N.

(** [str.isspace] on one character, for code points below 256: the
    characters [str.strip()] removes. *)
Definition isspace (c : ascii) : bool :=
  between 9 13 c || between 28 32 c
  || (code c =? 133)%N || (code c =? 160)%N.

(** C's [Py_ISSPACE], which [int()] uses on its ASCII buffer. *)
Definition c_isspace (c : ascii) : bool :=
  between 9 13 c || (code c =? 32)%N.

(** [str.lower] on one character, for code points below 256. *)
Definition lower_char (c : ascii) : ascii :=
  if between 65 90 c
     || (between 192 222 c && negb (code c =? 215)%N)
  then ascii_of_N (code c + 32)
  else c.

(** [str.upper] restricted to ASCII letters.  A character outside ASCII
    upper-cases to characters outside ASCII, so a comparison of the
    result with an ASCII word is decided by this restriction. *)
Definition upper_char (c : ascii) : ascii :=
  if between 97 122 c then ascii_of_N (code c - 32) else c.

Fixpoint map (f : ascii -> ascii) (s : string) : string :=
  match s with
  | EmptyString => EmptyString
  | String c s' => String (f c) (map f s')
  end.

Definition lower : string -> string := map lower_char.
Definition upper : string -> string := map upper_char.

Fixpoint all (p : ascii -> bool) (s : string) : bool :=
  match s with
  | EmptyString => true
  | String c s' => p c && all p s'
  end.

Fixpoint lstrip (s : string) : string :=
  match s with
  | EmptyString => EmptyString
  | String c s' => if isspace c then lstrip s' else s
  end.

Fixpoint rstrip (s : string) : string :=
  match s with
  | EmptyString => EmptyString
  | String c s' =>
      match rstrip s' with
      | EmptyString => if isspace c then EmptyString else String c EmptyString
      | t => String c t
      end
  end.

(** [s.strip()] *)
Definition strip (s : string) : string := rstrip (lstrip s).

(** [s.startswith(c)] for a one-character prefix. *)
Definition startswith (s : string) (c : ascii) : bool :=
  match s with
  | String d _ => bool_decide (d = c)
  | EmptyString => false
  end.

(** [s[1:]] *)
Definition tail (s : string) : string :=
  match s with
  | String _ s' => s'
  | EmptyString => EmptyString
  end.

(** [''.join([c*2 for c in s])] *)
Fixpoint double_chars (s : string) : string :=
  match s with
  | EmptyString => EmptyString
  | String c s' => String c (String c (double_chars s'))
  end.

(** [s[:i]] *)
Fixpoint prefix (s : string) (i : nat) : string :=
  match i, s with
  | S i', String c s' => String c (prefix s' i')
  | _, _ => EmptyString
  end.

Fixpoint rfind_from (s : string) (c : ascii) (i end_ : nat) : option nat :=
  match s with
  | EmptyString => None
  | String d s' =>
      match rfind_from s' c (S i) end_ with
      | Some j => Some j
      | None => if (i <? end_)%nat && bool_decide (d = c) then Some i else None
      end
  end.

(** [s.rfind(c, 0, end)] for a one-character [c]: the greatest index
    below [end] at which [s] holds [c]; [None] is Python's -1. *)
Definition rfind (s : string) (c : ascii) (end_ : nat) : option nat :=
  rfind_from s c 0 end_.

(** [str(n)] for a natural number. *)
Definition str_of_nat (n : nat) : string :=
  NilZero.string_of_uint (Nat.to_uint n).

(** ** [int(s, 16)]

    CPython first rewrites a non-ASCII string
    ([_PyUnicode_TransformDecimalAndSpaceToASCII]): a character below 127
    is kept, a space becomes [' '], a decimal digit its ASCII digit (no
    code point from 127 to 255 is one), and anything else becomes ['?']
    and ends the buffer.  An ASCII string is passed as it is. *)

Fixpoint to_ascii_buffer (s : string) : string :=
  match s with
  | EmptyString => EmptyString
  | String c s' =>
      if (code c <? 127)%N then String c (to_ascii_buffer s')
      else if isspace c then String " "%char (to_ascii_buffer s')
      else String "?"%char EmptyString
  end.

Definition is_ascii (s : string) : bool := all (fun c => (code c <? 128)%N) s.

(** [_PyLong_DigitValue], cut at base 16. *)
Definition hex_digit_value (c : ascii) : option Z :=
  if between 48 57 c then Some (Z.of_N (code c) - 48)
  else if between 97 102 c then Some (Z.of_N (code c) - 87)
  else if between 65 70 c then Some (Z.of_N (code c) - 55)
  else None.

Definition is_hex_digit (c : ascii) : bool :=
  match hex_digit_value c with Some _ => true | None => false end.

Definition is_underscore (c : ascii) : bool := (code c =? 95)%N.

Fixpoint skip_c_spaces (s : string) : string :=
  match s with
  | String c s' => if c_isspace c then skip_c_spaces s' else s
  | EmptyString => EmptyString
  end.

(** The digit loop of [long_from_string_base]: digits and single
    underscores; [prev] is whether the previous character was an
    underscore.  The result is the value, the number of digits and the
    rest of the buffer; a doubled or a trailing underscore is an error. *)
Fixpoint scan_digits (s : string) (prev : bool) (acc : Z) (digits : nat)
  : option (Z * nat * string) :=
  match s with
  | String c s' =>
      if is_underscore c then
        if prev then None else scan_digits s' true acc digits
      else
        match hex_digit_value c with
        | Some d => scan_digits s' false (16 * acc + d) (S digits)
        | None => if prev then None else Some (acc, digits, s)
        end
  | EmptyString => if prev then None else Some (acc, digits, s)
  end.

Definition is_char (a c : ascii) : bool := (code c =? code a)%N.

(** The sign [PyLong_FromString] reads, and the buffer after it. *)
Definition read_sign (s : string) : Z * string :=
  match s with
  | String c s' =>
      if is_char "+" c then (1, s')
      else if is_char "-" c then (-1, s')
      else (1, s)
  | EmptyString => (1, s)
  end.

(** The prefix [0x] or [0X] of base 16, and one underscore after it. *)
Definition skip_prefix16 (s : string) : string :=
  match s with
  | String c (String x s') =>
      if is_char "0" c && (is_char "x" x || is_char "X" x) then
        match s' with
        | String u s'' => if is_underscore u then s'' else s'
        | EmptyString => s'
        end
      else s
  | _ => s
  end.

(** [PyLong_FromString(buffer, &end, 16)] followed by the check that the
    whole buffer was read.  [None] is [ValueError]. *)
Definition long_from_string16 (buf : string) : option Z :=
  let '(sign, s) := read_sign (skip_c_spaces buf) in
  let s := skip_prefix16 s in
  match s with
  | String u _ => if is_underscore u then None else
      match scan_digits s false 0 0 with
      | None => None
      | Some (v, digits, rest) =>
          match digits with
          | O => None
          | S _ =>
              match skip_c_spaces rest with
              | EmptyString => Some (sign * v)
              | String _ _ => None
              end
          end
      end
  | EmptyString => None
  end.

Definition int16 (s : string) : option Z :=
  long_from_string16 (if is_ascii s then s else to_ascii_buffer s).

End Py.

(* ===================================================================== *)
(** * The objects of discord.py the modules pass around *)
(* ===================================================================== *)

Module discord.

(** [discord.Colour(value)] *)
Record Colour := mkColour { value : Z }.

Definition handle := nat.
Definition View := nat.
Definition File := nat.

Record Channel := mkChannel { channel_name : string }.
Record Interaction := mkInteraction { id : Z; application_id : Z }.
Record Context := mkContext {
  author_display_name : string;
  author_display_avatar : string
}.

Record Embed := mkEmbed {
  title : option string;
  color : Colour;
  description : string;
  footer : option (string * string)
}.

(** The class methods of [discord.Colour] that take no argument and
    return a colour (discord/colour.py of discord.py 2.4). *)
Definition Colour_classmethods : list string :=
  [ "default"; "random"; "teal"; "dark_teal"; "brand_green"; "green";
    "dark_green"; "blue"; "dark_blue"; "purple"; "dark_purple"; "magenta";
    "dark_magenta"; "gold"; "dark_gold"; "orange"; "dark_orange";
    "brand_red"; "red"; "dark_red"; "lighter_grey"; "lighter_gray";
    "dark_grey"; "dark_gray"; "light_grey"; "light_gray"; "darker_grey";
    "darker_gray"; "og_blurple"; "blurple"; "greyple"; "dark_theme";
    "fuchsia"; "yellow"; "dark_embed"; "light_embed"; "pink" ].

(** [hasattr(discord.Colour, name)], for the name of a colour. *)
Definition Colour_hasattr (name : string) : bool :=
  bool_decide (name ∈ Colour_classmethods).

Definition set_footer (e : Embed) (text icon_url : string) : Embed :=
  mkEmbed (title e) (color e) (description e) (Some (text, icon_url)).

(** An optional argument of discord.py: the sentinel [MISSING] or a
    value. *)
Inductive arg (A : Type) :=
| MISSING
| Given (a : A).
Arguments MISSING {A}.
Arguments Given {A} a.

(** The coroutine handed to the rate limiter. *)
Inductive Coroutine :=
| response_send_message (i : Interaction) (content : option string)
    (embed : arg Embed) (view : arg View) (file : arg File) (ephemeral : bool)
| followup_send (i : Interaction) (content : option string)
    (embed : arg Embed) (view : arg View) (file : arg File) (ephemeral : bool).

(** A call that leaves the module for the network. *)
Inductive Call :=
| safe_send (channel : Channel) (content : option string)
    (embed : option Embed) (view : option View) (file : option File)
| execute_request (coro : Coroutine) (route : string)
    (major_params : gmap string Z)
| ctx_send (ctx : Context) (embed : Embed) (delete_after : Z).

Definition through_rate_limiter (c : Call) : bool :=
  match c with
  | safe_send _ _ _ _ _ | execute_request _ _ _ => true
  | ctx_send _ _ _ => false
  end.

End discord.

(* ===================================================================== *)
(** * log.py *)
(* ===================================================================== *)

Module log.

Import discord.

(** ** Exceptions *)

(** The exception classes the module names or meets.  All of them derive
    from [Exception]; [OtherException] stands for every other subclass
    of it. *)
Inductive exn_class :=
| Forbidden | NotFound | InteractionResponded
| RuntimeError | AttributeError | ValueError | OtherException.

#[global] Instance exn_class_eq_dec : EqDecision exn_class.
Proof. solve_decision. Defined.

(** An exception: its class and [str(e)]. *)
Record exn := Exn { exn_cls : exn_class; exn_str : string }.

Inductive outcome (A : Type) :=
| Ok (a : A)
| Raise (e : exn).
Arguments Ok {A} a.
Arguments Raise {A} e.

(** ** The objects of the [logging] library *)

Definition NOTSET : Z := 0.
Definition DEBUG : Z := 10.
Definition INFO : Z := 20.
Definition WARNING : Z := 30.
Definition ERROR : Z := 40.
Definition CRITICAL : Z := 50.

(** [logging.getLevelNamesMapping()] *)
Definition getLevelNamesMapping : gmap string Z :=
  list_to_map
    [ ("CRITICAL", CRITICAL); ("FATAL", CRITICAL); ("ERROR", ERROR);
      ("WARN", WARNING); ("WARNING", WARNING); ("INFO", INFO);
      ("DEBUG", DEBUG); ("NOTSET", NOTSET) ].

Inductive handler_kind :=
| FileHandler (path encoding : string)
| StreamHandler.

Inductive formatter :=
| Formatter (fmt datefmt : string)
| ColorFormatter (fmt datefmt : string).

Record Handler := mkHandler {
  h_kind : handler_kind;
  h_level : Z;
  h_formatter : formatter
}.

Record Logger := mkLogger {
  lg_level : Z;
  lg_handlers : list Handler;
  lg_propagate : bool
}.

(** A reference to a logger object: the root logger or the logger
    registered under a name. *)
Inductive logger_ref :=
| Root
| Named (name : string).

#[global] Instance logger_ref_eq_dec : EqDecision logger_ref.
Proof. solve_decision. Defined.

Record LogRecord := mkRecord {
  r_logger : logger_ref;
  r_level : Z;
  r_msg : string;
  r_stack_info : bool
}.

(** ** State *)

(** The state the module reads and writes: the loggers of the [logging]
    library, the module global [logger], the records handed to a logger
    so far, and the network calls made so far.

    The library keeps the root logger apart and every other logger in the
    manager's [loggerDict], by name, next to the placeholders that stand
    for the names of missing ancestors.  Here [loggers] holds the logger
    objects of that dictionary, [parents] the [parent] attribute of each
    of them, and [placeholders] the placeholders, each with the names of
    the loggers in its [loggerMap].  Whether a handler writes a record it
    is handed is the library's decision, from the thresholds; [records]
    is what the module hands over. *)
Record World := mkWorld {
  root : Logger;
  loggers : gmap string Logger;
  logger : option logger_ref;
  records : list LogRecord;
  calls : list Call;
  parents : gmap string logger_ref;
  placeholders : gmap string (list string)
}.

Definition set_root (o : Logger) (w : World) : World :=
  mkWorld o (loggers w) (logger w) (records w) (calls w)
    (parents w) (placeholders w).
Definition set_loggers (m : gmap string Logger) (w : World) : World :=
  mkWorld (root w) m (logger w) (records w) (calls w)
    (parents w) (placeholders w).
Definition set_logger (r : option logger_ref) (w : World) : World :=
  mkWorld (root w) (loggers w) r (records w) (calls w)
    (parents w) (placeholders w).
Definition add_record (r : LogRecord) (w : World) : World :=
  mkWorld (root w) (loggers w) (logger w) (records w ++ [r]) (calls w)
    (parents w) (placeholders w).
Definition add_call (c : Call) (w : World) : World :=
  mkWorld (root w) (loggers w) (logger w) (records w) (calls w ++ [c])
    (parents w) (placeholders w).
Definition set_parents (m : gmap string logger_ref) (w : World) : World :=
  mkWorld (root w) (loggers w) (logger w) (records w) (calls w)
    m (placeholders w).
Definition set_placeholders (m : gmap string (list string)) (w : World) : World :=
  mkWorld (root w) (loggers w) (logger w) (records w) (calls w)
    (parents w) m.

(** The state of a fresh interpreter: the root logger at WARNING without
    handlers, no other logger, [logger = None]. *)
Definition initial : World :=
  mkWorld (mkLogger WARNING [] true) ∅ None [] [] ∅ ∅.

(** ** Computations *)

Definition M (A : Type) : Type := World -> outcome A * World.

Definition ret {A} (a : A) : M A := fun w => (Ok a, w).
Definition raise {A} (e : exn) : M A := fun w => (Raise e, w).
Definition bind {A B} (m : M A) (k : A -> M B) : M B :=
  fun w =>
    match m w with
    | (Ok a, w') => k a w'
    | (Raise e, w') => (Raise e, w')
    end.
(** [try: m  except Exception as e: h e] *)
Definition try_except {A} (m : M A) (h : exn -> M A) : M A :=
  fun w =>
    match m w with
    | (Ok a, w') => (Ok a, w')
    | (Raise e, w') => h e w'
    end.

Declare Scope py_scope.
Delimit Scope py_scope with py.
Notation "x <- m ;; k" := (bind m (fun x => k))
  (at level 100, m at next level, right associativity) : py_scope.
Notation "m ;;; k" := (bind m (fun _ => k))
  (at level 100, right associativity) : py_scope.
Local Open Scope py_scope.

(** ** Logging configuration *)

Definition new_logger : Logger := mkLogger NOTSET [] true.

Definition deref (r : logger_ref) (w : World) : Logger :=
  match r with
  | Root => root w
  | Named n => default new_logger (loggers w !! n)
  end.

Definition assign (r : logger_ref) (o : Logger) (w : World) : World :=
  match r with
  | Root => set_root o w
  | Named n => set_loggers (<[n := o]> (loggers w)) w
  end.

(** The [name] attribute of a logger. *)
Definition ref_name (r : logger_ref) : string :=
  match r with
  | Root => "root"
  | Named n => n
  end.

(** The [parent] attribute of a logger; the root logger has none. *)
Definition parent (r : logger_ref) (w : World) : option logger_ref :=
  match r with
  | Root => None
  | Named n => Some (default Root (parents w !! n))
  end.

(** [PlaceHolder.append(alogger)] *)
Definition PlaceHolder_append (loggerMap : list string) (alogger : string)
  : list string :=
  if bool_decide (alogger ∈ loggerMap) then loggerMap else loggerMap ++ [alogger].

(** The loop of [Manager._fixupParents] for the logger [name], at the
    index [i] of a dot: the prefix before the dot is given a placeholder,
    or is added to the one it has, unless it names a logger, which ends
    the loop as the parent found; the next index is
    [name.rfind(".", 0, i - 1)].  The index decreases, so the length of
    the name is fuel enough. *)
Fixpoint fixupParents_loop (fuel : nat) (name : string) (i : option nat)
  (w : World) : option logger_ref * World :=
  match fuel, i with
  | S fuel', Some (S i') =>
      let substr := Py.prefix name (S i') in
      match loggers w !! substr with
      | Some _ => (Some (Named substr), w)
      | None =>
          let ph :=
            match placeholders w !! substr with
            | None => [name]
            | Some loggerMap => PlaceHolder_append loggerMap name
            end in
          fixupParents_loop fuel' name (Py.rfind name "." i')
            (set_placeholders (<[substr := ph]> (placeholders w)) w)
      end
  | _, _ => (None, w)
  end.

(** [Manager._fixupParents(alogger)]: the parent is the logger found, or
    the root logger. *)
Definition fixupParents (name : string) (w : World) : World :=
  let '(rv, w) :=
    fixupParents_loop (String.length name) name
      (Py.rfind name "." (String.length name)) w in
  set_parents (<[name := default Root rv]> (parents w)) w.

(** [Manager._fixupChildren(ph, alogger)]: a logger of the placeholder
    whose parent's name does not start with the new name gets the new
    logger as its parent. *)
Definition fixupChildren (loggerMap : list string) (name : string) (w : World)
  : World :=
  fold_left
    (fun w c =>
       let c_parent := default Root (parents w !! c) in
       if bool_decide (Py.prefix (ref_name c_parent) (String.length name) = name)
       then w
       else set_parents (<[c := Named name]> (<[name := c_parent]> (parents w))) w)
    loggerMap w.

(** The branches of [Manager.getLogger(name)] for a name without a
    logger: a new logger is put in the dictionary, in the place of the
    placeholder of the name if there is one, and then in its place among
    the loggers of that placeholder and under its parent. *)
Definition register_logger (name : string) (w : World) : World :=
  let ph := placeholders w !! name in
  let w := set_loggers (<[name := new_logger]> (loggers w)) w in
  let w := set_placeholders (delete name (placeholders w)) w in
  let w :=
    match ph with
    | Some loggerMap => fixupChildren loggerMap name w
    | None => w
    end in
  fixupParents name w.

(** [logging.getLogger(name)]: the root logger for the empty name and
    for ["root"], else [Manager.getLogger(name)]: the logger registered
    under the name, or a new one. *)
Definition getLogger (name : string) (w : World) : logger_ref * World :=
  if bool_decide (name = "") || bool_decide (name = "root") then (Root, w)
  else
    match loggers w !! name with
    | Some _ => (Named name, w)
    | None => (Named name, register_logger name w)
    end.

Definition setLevel (r : logger_ref) (level : Z) (w : World) : World :=
  let o := deref r w in
  assign r (mkLogger level (lg_handlers o) (lg_propagate o)) w.

(** [Logger.addHandler(h)] for a handler object that was just created:
    such an object is in no list yet, so it is appended. *)
Definition addHandler (r : logger_ref) (h : Handler) (w : World) : World :=
  let o := deref r w in
  assign r (mkLogger (lg_level o) (lg_handlers o ++ [h]) (lg_propagate o)) w.

Definition has_own_handlers (o : Logger) : bool :=
  match lg_handlers o with [] => false | _ :: _ => true end.

(** The loop of [Logger.hasHandlers()] from the logger [c]: its handlers,
    then, as long as [propagate] is set, those of its parent, up to the
    root logger. *)
Fixpoint hasHandlers_from (fuel : nat) (c : logger_ref) (w : World) : bool :=
  match fuel with
  | O => false
  | S fuel' =>
      let o := deref c w in
      if has_own_handlers o then true
      else if negb (lg_propagate o) then false
      else
        match parent c w with
        | Some p => hasHandlers_from fuel' p w
        | None => false
        end
  end.

(** The parent of a logger is the root logger or a logger of a shorter
    name, a proper prefix, so the loop from a logger ends within the
    length of its name, and two steps. *)
Definition hasHandlers (r : logger_ref) (w : World) : bool :=
  hasHandlers_from (S (S (String.length (ref_name r)))) r w.

Section Setup.

(** The directory above the package, [dirname(dirname(__file__))]. *)
Variable install_root : string.

Definition LOG_FILE : string := install_root +:+ "/bot.log".

(** The two handler objects [setup_logger] creates. *)
Definition new_file_handler (file_logLevel : Z) : Handler :=
  mkHandler (FileHandler LOG_FILE "utf-8") file_logLevel
    (Formatter "%(asctime)s [%(levelname)-8s] %(name)s: %(message)s"
       "%Y-%m-%d %H:%M:%S").

Definition new_console_handler (console_logLevel : Z) : Handler :=
  mkHandler StreamHandler console_logLevel
    (ColorFormatter "%(asctime)s %(levelname)-8s %(name)s %(message)s"
       "%Y-%m-%d %H:%M:%S").

(** [logLevels.get(level.upper(), logging.INFO)] *)
Definition level_named (level : string) : Z :=
  default INFO (getLevelNamesMapping !! Py.upper level).

Definition setup_logger (logger_name file_level console_level : string)
  (w : World) : World :=
  let file_logLevel := level_named file_level in
  let console_logLevel := level_named console_level in
  let '(lg, w) := getLogger logger_name w in
  let w := set_logger (Some lg) w in
  let w := setLevel lg (Z.min file_logLevel console_logLevel) w in
  (* File handler *)
  let file_handler := new_file_handler file_logLevel in
  (* Console handler *)
  let console_handler := new_console_handler console_logLevel in
  (* Add handlers if not already present *)
  if negb (hasHandlers lg w) then
    addHandler lg console_handler (addHandler lg file_handler w)
  else w.

End Setup.

(** ** Logging functions *)

(** [logger.debug(msg)] and the like, on the module global: a call on
    [None] is an [AttributeError]. *)
Definition Logger_log (method : string) (level : Z) (msg : string)
  (stack_info : bool) : M unit :=
  fun w =>
    match logger w with
    | None =>
        (Raise (Exn AttributeError
                  ("'NoneType' object has no attribute '" +:+ method +:+ "'")), w)
    | Some lg => (Ok tt, add_record (mkRecord lg level msg stack_info) w)
    end.

Definition require_logger {A} (func : string -> M A) : string -> M A :=
  fun msg w =>
    match logger w with
    | None =>
        (Raise (Exn RuntimeError
                  "Logger has not been set up. Call setup_logger() first."), w)
    | Some _ => func msg w
    end.

Definition debug : string -> M unit :=
  require_logger (fun msg => Logger_log "debug" DEBUG msg false).

Definition info : string -> M unit :=
  require_logger (fun msg => Logger_log "info" INFO msg false).

Definition warning : string -> M unit :=
  require_logger (fun msg => Logger_log "warning" WARNING msg false).

(** [error(msg, stacktrace=True)] *)
Definition error (msg : string) (stacktrace : bool) : M unit :=
  require_logger (fun msg => Logger_log "error" ERROR msg stacktrace) msg.

(** ** Discord helpers *)

Definition missing_if_none {A} (value : option A) : arg A :=
  match value with
  | None => MISSING
  | Some v => Given v
  end.

Section Remote.

(** The answer of the network to a call, given the calls made before
    it: a value (Python's [None] is [None]) or an exception. *)
Variable remote : list Call -> Call -> outcome (option handle).

(** [await] of a network call: the call is recorded, and its answer is
    the oracle's. *)
Definition await (c : Call) : M (option handle) :=
  fun w => (remote (calls w) c, add_call c w).

Definition safe_send_message (channel : Channel) (content : option string)
  (embed : option Embed) (view : option View) (file : option File)
  : M (option handle) :=
  try_except
    (result <- await (safe_send channel content embed view file) ;;
     info ("Message sent in " +:+ channel_name channel) ;;;
     ret result)
    (fun e =>
       match exn_cls e with
       | Forbidden =>
           error ("Bot has not the permission to send messages in "
                    +:+ channel_name channel) true ;;;
           ret None
       | NotFound =>
           error ("Channel " +:+ channel_name channel +:+ " not found") true ;;;
           ret None
       | _ =>
           error ("Error when sending message: " +:+ exn_str e) true ;;;
           ret None
       end).

Definition safe_followup (interaction : Interaction) (content : option string)
  (embed : option Embed) (view : option View) (file : option File)
  (ephemeral : bool) : M (option handle) :=
  try_except
    (await
       (execute_request
          (followup_send interaction content (missing_if_none embed)
             (missing_if_none view) (missing_if_none file) ephemeral)
          "POST /webhooks/{application_id}/{interaction_token}"
          {[ "application_id" := application_id interaction ]}))
    (fun e =>
       error ("Error during the followup: " +:+ exn_str e) true ;;;
       ret None).

Definition safe_respond (interaction : Interaction) (content : option string)
  (embed : option Embed) (view : option View) (file : option File)
  (ephemeral : bool) : M (option handle) :=
  try_except
    (await
       (execute_request
          (response_send_message interaction content (missing_if_none embed)
             (missing_if_none view) (missing_if_none file) ephemeral)
          "POST /interactions/{interaction_id}/{interaction_token}/callback"
          {[ "interaction_id" := id interaction ]}))
    (fun e =>
       match exn_cls e with
       | InteractionResponded =>
           (* Use followup if already responded *)
           safe_followup interaction content embed view file ephemeral ;;;
           ret None
       | _ =>
           error ("Error when responding to the interaction: " +:+ exn_str e) true ;;;
           ret None
       end).

(** ** Client message helpers *)

(** What [ctx] can be at run time: the two annotated classes, or
    anything else, for which neither [isinstance] test holds. *)
Inductive Target :=
| TContext (ctx : Context)
| TInteraction (i : Interaction)
| TOther.

(** The value of [discord.Colour.<name>()], by name. *)
Variable Colour_named : string -> Colour.

Definition client (ctx : Target) (msg : string) (title : option string)
  (color : Colour) (delete_after : Z) : M (option handle) :=
  let e := mkEmbed title color msg None in
  match ctx with
  | TContext c =>
      let e := set_footer e ("Commande faites par " +:+ author_display_name c)
                 (author_display_avatar c) in
      await (ctx_send c e delete_after)
  | TInteraction i => safe_respond i None (Some e) None None true
  | TOther => ret None
  end.

Definition success (ctx : Target) (msg : string) (delete_after : Z)
  : M (option handle) :=
  info msg ;;;
  client ctx msg (Some ":white_check_mark: Success") (Colour_named "green")
    delete_after.

Definition failure (ctx : Target) (msg : string) (delete_after : Z)
  (stacktrace : bool) : M (option handle) :=
  error msg stacktrace ;;;
  client ctx msg (Some ":x: Error") (Colour_named "red") delete_after.

End Remote.

End log.

(* ===================================================================== *)
(** * log.py: the console formatter *)
(* ===================================================================== *)

(** The class [ColorFormatter] that [setup_logger] defines for its console
    handler. *)
Module ColorFormatter.

(** The character [\033]. *)
Definition ESC : ascii := "027"%char.

Definition COLORS : gmap string string :=
  list_to_map
    [ ("DEBUG", String ESC "[36m");     (* CYAN *)
      ("INFO", String ESC "[34m");      (* Blue *)
      ("WARNING", String ESC "[33m");   (* Yellow *)
      ("ERROR", String ESC "[31m");     (* Red *)
      ("CRITICAL", String ESC "[41m") ] (* Red background *).
Definition BOLD : string := String ESC "[1m".
Definition PURPLE : string := String ESC "[35m".
Definition RESET : string := String ESC "[0m".

(** The attributes of a [logging.LogRecord] that [format] reads and
    writes, and the message, for the attributes it leaves alone. *)
Record LogRecord := mkLogRecord {
  levelname : string;
  name : string;
  msg : string
}.

Fixpoint spaces (n : nat) : string :=
  match n with
  | O => EmptyString
  | S n' => String " " (spaces n')
  end.

(** [f"{s:<8}"] for width 8: [s], then spaces up to the width. *)
Definition ljust (s : string) (width : nat) : string :=
  s +:+ spaces (width - String.length s).

Section Format.

(** [logging.Formatter.format], which renders the record as it finds
    it. *)
Variable super_format : LogRecord -> string.

(** [format] assigns to attributes of the record it is given: the result
    is the text and the record as the call leaves it. *)
Definition format (record : LogRecord) : string * LogRecord :=
  let levelname := levelname record in
  (* Pad the level name before applying color codes *)
  let padded_levelname := ljust levelname 8 in
  let color := default "" (COLORS !! levelname) in
  let record :=
    mkLogRecord (BOLD +:+ color +:+ padded_levelname +:+ RESET)
      (name record) (msg record) in
  let record :=
    mkLogRecord (ColorFormatter.levelname record)
      (PURPLE +:+ name record +:+ RESET) (msg record) in
  (super_format record, record).

End Format.

End ColorFormatter.

(* ===================================================================== *)
(** * colors.py *)
(* ===================================================================== *)

Module colors.

Import discord log.
Local Open Scope py_scope.

(** List of known discord.py color names *)
Definition known_color_names : list string :=
  [ "teal"; "dark_teal"; "brand_green"; "green"; "dark_green";
    "blue"; "dark_blue"; "purple"; "dark_purple"; "magenta";
    "dark_magenta"; "gold"; "dark_gold"; "orange"; "dark_orange";
    "brand_red"; "red"; "dark_red"; "lighter_grey"; "lighter_gray";
    "dark_grey"; "dark_gray"; "light_grey"; "light_gray"; "darker_grey";
    "darker_gray"; "og_blurple"; "blurple"; "greyple"; "dark_theme";
    "fuchsia"; "yellow"; "dark_embed"; "light_embed"; "pink"; "dark_pink" ].

Definition known_colors : gset string := list_to_set known_color_names.

(** [int(s, 16)] as a computation: [ValueError] on a string the parser
    refuses. *)
Definition int_ (s : string) : M Z :=
  match Py.int16 s with
  | Some v => ret v
  | None =>
      raise (Exn ValueError
               ("invalid literal for int() with base 16: '" +:+ s +:+ "'"))
  end.

Section Resolver.

(** The value of [discord.Colour.<name>()], by name. *)
Variable Colour_named : string -> Colour.

(** [getattr(discord.Colour, name)]: the class method of this name,
    as the colour its call returns, or [AttributeError]. *)
Definition Colour_getattr (name : string) : M Colour :=
  if Colour_hasattr name then ret (Colour_named name)
  else
    raise (Exn AttributeError
             ("type object 'Colour' has no attribute '" +:+ name +:+ "'")).

(** The named branch is outside the [try]: what [getattr] raises
    reaches the caller.  The [try] block rebinds [color_str] before the
    only call in it that can raise, so the bindings are made first; the
    block yields the colour it returns, or [None] when control leaves it
    without a [return]. *)
Definition str_to_color (color_str : string) : M Colour :=
  let color_str := Py.strip color_str in
  (* try named color *)
  let color_name := Py.lower color_str in
  if bool_decide (color_name ∈ known_colors) then
    func <- Colour_getattr color_name ;;
    ret func
  else
    (* try hex code *)
    let color_str :=
      if Py.startswith color_str "#" then Py.tail color_str else color_str in
    let color_str :=
      if (String.length color_str =? 3)%nat
      then Py.double_chars color_str else color_str in
    returned <-
      try_except
        (if (String.length color_str =? 6)%nat then
           v <- int_ color_str ;; ret (Some (mkColour v))
         else ret None)
        (fun _ => ret None) ;;
    match returned with
    | Some c => ret c
    | None =>
        warning ("Invalid color string '" +:+ color_str
                   +:+ "', using default color (blurple).") ;;;
        ret (Colour_named "blurple")
    end.

End Resolver.

End colors.

(* ===================================================================== *)
(** * utils.py *)
(* ===================================================================== *)

Module utils.

Import log.
Local Open Scope py_scope.

Section Views.

(** View objects, compared by identity, and their classes. *)
Context {ViewObj : Type} `{EqDecision ViewObj} {Class : Type}.
Variable type_of : ViewObj -> Class.
Variable issubclass : Class -> Class -> bool.

(** The second argument of [isinstance]: a class or a tuple of
    classes. *)
Inductive ViewTypes :=
| Single (c : Class)
| Tuple (cs : list Class).

(** [str(view_types)] *)
Variable str_of_types : ViewTypes -> string.

Definition isinstance (view : ViewObj) (view_types : ViewTypes) : bool :=
  match view_types with
  | Single c => issubclass (type_of view) c
  | Tuple cs => existsb (issubclass (type_of view)) cs
  end.

(** [l.remove(x)]: the first element equal to [x] is removed;
    [ValueError] when there is none. *)
Fixpoint list_remove (x : ViewObj) (l : list ViewObj) : option (list ViewObj) :=
  match l with
  | [] => None
  | y :: l' =>
      if decide (y = x) then Some l'
      else cons y <$> list_remove x l'
  end.

(** [bot.persistent_views], of [discord.Client]: a property, which
    builds a new list of the views the bot stores at each access.  The
    bot is the list of the views it stores. *)
Definition persistent_views (bot : list ViewObj) : list ViewObj := bot.

(** [for view in views_to_remove: bot.persistent_views.remove(view)]:
    each [remove] acts on the list the property has just built, which
    nothing refers to afterwards; the views the bot stores are not
    touched. *)
Fixpoint remove_all (views_to_remove : list ViewObj) (bot : list ViewObj)
  : outcome unit * list ViewObj :=
  match views_to_remove with
  | [] => (Ok tt, bot)
  | view :: rest =>
      match list_remove view (persistent_views bot) with
      | Some _ => remove_all rest bot
      | None => (Raise (Exn ValueError "list.remove(x): x not in list"), bot)
      end
  end.

(** The state is the bot, as the list of the views it stores, and the
    state of the log. *)
Definition clear_views (view_types : option ViewTypes)
  (bot : list ViewObj) (w : World)
  : outcome unit * list ViewObj * World :=
  match view_types with
  | None =>
      let '(r, w) :=
        warning "No view types provided to clear_views; skipping." w in
      (r, bot, w)
  | Some view_types =>
      let views_to_remove :=
        filter (fun view => isinstance view view_types = true)
          (persistent_views bot) in
      match remove_all views_to_remove bot with
      | (Ok _, bot) =>
          let '(r, w) :=
            info ("Removed " +:+ Py.str_of_nat (length views_to_remove)
                    +:+ " persistent views of types "
                    +:+ str_of_types view_types) w in
          (r, bot, w)
      | (Raise e, bot) => (Raise e, bot, w)
      end
  end.

End Views.

End utils.

(* ===================================================================== *)
(** * Vocabulary of the statements *)
(* ===================================================================== *)

Import discord log colors.

(** ** States and networks the modules are run on *)

(** A state in which [setup_logger] has run with its default arguments. *)
Definition ready : World :=
  setup_logger "/srv/bot" "DungeonBot" "INFO" "INFO" initial.

(** A network on which every call succeeds. *)
Definition answers : list Call -> Call -> outcome (option handle) :=
  fun _ _ => Ok (Some 7%nat).

(** A network on which every call fails with an exception of one class. *)
Definition refuses (cls : exn_class) : list Call -> Call -> outcome (option handle) :=
  fun _ _ => Raise (Exn cls "403 Forbidden (error code: 50013): Missing Permissions").

(** An interaction whose response slot is consumed: the initial response
    raises InteractionResponded, every other call succeeds. *)
Definition already_responded : list Call -> Call -> outcome (option handle) :=
  fun _ c =>
    match c with
    | execute_request (response_send_message _ _ _ _ _ _) _ _ =>
        Raise (Exn InteractionResponded
                 "This interaction has already been responded to before")
    | _ => Ok (Some 7%nat)
    end.

(** A table of named colours, with discord.py's values for four names. *)
Definition sample_palette (name : string) : Colour :=
  mkColour
    (if bool_decide (name = "teal") then 1752220
     else if bool_decide (name = "green") then 3066993
     else if bool_decide (name = "red") then 15158332
     else if bool_decide (name = "blurple") then 5793266
     else 0).

Definition sample_interaction : Interaction := mkInteraction 1001 2002.
Definition sample_channel : Channel := mkChannel "general".
Definition sample_context : Context := mkContext "Ada" "https://cdn.example/ada.png".

(** ** Logging and dispatch *)

(** The exception of the guard [require_logger]. *)
Definition not_set_up : exn :=
  Exn RuntimeError "Logger has not been set up. Call setup_logger() first.".

(** The state [setup_logger] has reached when it tests for handlers. *)
Definition configured (name file_level console_level : string) (w : World)
  : World :=
  let lg := fst (getLogger name w) in
  setLevel lg (Z.min (level_named file_level) (level_named console_level))
    (set_logger (Some lg) (snd (getLogger name w))).

(** The error record [safe_send_message] writes for an exception. *)
Definition send_error_msg (channel : Channel) (e : exn) : string :=
  match exn_cls e with
  | Forbidden =>
      "Bot has not the permission to send messages in " +:+ channel_name channel
  | NotFound => "Channel " +:+ channel_name channel +:+ " not found"
  | _ => "Error when sending message: " +:+ exn_str e
  end.

(** The two requests [safe_respond] and [safe_followup] hand to the rate
    limiter. *)
Definition respond_call (i : Interaction) (content : option string)
  (embed : option Embed) (view : option View) (file : option File)
  (ephemeral : bool) : Call :=
  execute_request
    (response_send_message i content (missing_if_none embed)
       (missing_if_none view) (missing_if_none file) ephemeral)
    "POST /interactions/{interaction_id}/{interaction_token}/callback"
    {[ "interaction_id" := id i ]}.

Definition followup_call (i : Interaction) (content : option string)
  (embed : option Embed) (view : option View) (file : option File)
  (ephemeral : bool) : Call :=
  execute_request
    (followup_send i content (missing_if_none embed)
       (missing_if_none view) (missing_if_none file) ephemeral)
    "POST /webhooks/{application_id}/{interaction_token}"
    {[ "application_id" := application_id i ]}.

(** The embed [client] sends to a command context. *)
Definition with_footer (e : Embed) (c : Context) : Embed :=
  set_footer e ("Commande faites par " +:+ author_display_name c)
    (author_display_avatar c).

(** [w'] continues [w]: the loggers, their hierarchy and the module's
    [logger] are those of [w], and the records and the calls of [w] are
    the first records and calls of [w'], in their order. *)
Definition continues (w w' : World) : Prop :=
  root w' = root w /\ loggers w' = loggers w /\ logger w' = logger w
  /\ parents w' = parents w /\ placeholders w' = placeholders w
  /\ records w `prefix_of` records w' /\ calls w `prefix_of` calls w'.


(** A computation that only continues the state it starts from. *)
Definition steady {A} (m : M A) : Prop :=
  forall w, continues w (snd (m w)).

(** ** Strings and colours *)

(** A character [strip] keeps. *)
Definition nonspace (c : ascii) : bool := negb (Py.isspace c).

(** A hexadecimal digit or ['#']. *)
Definition hexish (c : ascii) : bool := Py.is_hex_digit c || Py.is_char "#" c.

(** The number a string of hexadecimal digits denotes, most significant
    digit first. *)
Fixpoint hex_number (s : string) : Z :=
  match s with
  | EmptyString => 0
  | String c s' =>
      default 0 (Py.hex_digit_value c) * 16 ^ Z.of_nat (String.length s')
      + hex_number s'
  end.

(** The string the hex branch of [str_to_color] hands to [int]: the
    stripped input, without one leading ['#'], each character doubled
    when three are left. *)
Definition hex_candidate (s : string) : string :=
  let s := Py.strip s in
  let s := if Py.startswith s "#" then Py.tail s else s in
  if (String.length s =? 3)%nat then Py.double_chars s else s.

(** The text of the warning for a string. *)
Definition invalid_color_warning (s : string) : string :=
  "Invalid color string '" +:+ s +:+ "', using default color (blurple).".

(** A colour code in hexadecimal notation: three or six hexadecimal
    digits, after an optional ['#'], white space around them aside. *)
Definition is_hex_code (s : string) : bool :=
  let s := Py.strip s in
  let s := if Py.startswith s "#" then Py.tail s else s in
  ((String.length s =? 3)%nat || (String.length s =? 6)%nat)
  && Py.all Py.is_hex_digit s.

(* ===================================================================== *)
(** * Properties of log.py: the logging functions *)
(* ===================================================================== *)

Import discord log.
Local Open Scope py_scope.

Lemma require_logger_None {A} (func : string -> M A) msg w :
  logger w = None -> require_logger func msg w = (Raise not_set_up, w).
Proof. intros H. unfold require_logger. now rewrite H. Qed.

Lemma require_logger_Some {A} (func : string -> M A) msg w lg :
  logger w = Some lg -> require_logger func msg w = func msg w.
Proof. intros H. unfold require_logger. now rewrite H. Qed.

(** Without its guard, a logging function called before [setup_logger]
    would call a method of [None]. *)
Lemma Logger_log_None method level msg stack_info w :
  logger w = None ->
  exists e, Logger_log method level msg stack_info w = (Raise e, w)
            /\ exn_cls e = AttributeError.
Proof. intros H. unfold Logger_log. rewrite H. eauto. Qed.

Lemma Logger_log_Some method level msg stack_info w lg :
  logger w = Some lg ->
  Logger_log method level msg stack_info w
  = (Ok tt, add_record (mkRecord lg level msg stack_info) w).
Proof. intros H. unfold Logger_log. now rewrite H. Qed.

Lemma info_Some msg w lg :
  logger w = Some lg ->
  info msg w = (Ok tt, add_record (mkRecord lg INFO msg false) w).
Proof.
  intros H. unfold info. rewrite (require_logger_Some _ _ _ _ H).
  now apply Logger_log_Some.
Qed.

Lemma warning_Some msg w lg :
  logger w = Some lg ->
  warning msg w = (Ok tt, add_record (mkRecord lg WARNING msg false) w).
Proof.
  intros H. unfold warning. rewrite (require_logger_Some _ _ _ _ H).
  now apply Logger_log_Some.
Qed.

Lemma error_Some msg stacktrace w lg :
  logger w = Some lg ->
  error msg stacktrace w
  = (Ok tt, add_record (mkRecord lg ERROR msg stacktrace) w).
Proof.
  intros H. unfold error. rewrite (require_logger_Some _ _ _ _ H).
  now apply Logger_log_Some.
Qed.

Ltac simpl_world :=
  unfold add_record, add_call in *;
  cbn [records calls logger root loggers fst snd] in *.

Lemma logger_add_record r w : logger (add_record r w) = logger w.
Proof. reflexivity. Qed.

Lemma logger_add_call c w : logger (add_call c w) = logger w.
Proof. reflexivity. Qed.

(** C7.  Before [setup_logger] has run ([logger] is [None]), each of
    [debug], [info], [warning] and [error] raises the RuntimeError of the
    guard to its caller: the call returns no value, hands no record to any
    logger and leaves the state as it was, and the exception is the
    guard's, not the AttributeError of a call on [None]. *)
Theorem emit_before_setup_raises (msg : string) (stacktrace : bool) (w : World) :
  logger w = None ->
  debug msg w = (Raise not_set_up, w)
  /\ info msg w = (Raise not_set_up, w)
  /\ warning msg w = (Raise not_set_up, w)
  /\ error msg stacktrace w = (Raise not_set_up, w)
  /\ exn_cls not_set_up = RuntimeError.
Proof.
  intros H. unfold debug, info, warning, error.
  rewrite !(require_logger_None _ _ _ H). auto.
Qed.

(** The catch-all of [safe_send_message] does not swallow the error of
    the guard: before [setup_logger] has run, the handler's own call of
    [error] raises it again, whatever the network answered. *)
Lemma safe_send_message_before_setup remote channel content embed view file w :
  logger w = None ->
  safe_send_message remote channel content embed view file w
  = (Raise not_set_up, add_call (safe_send channel content embed view file) w).
Proof.
  intros H. unfold safe_send_message, try_except, bind, await.
  assert (Hi : forall msg, info msg (add_call (safe_send channel content embed view file) w)
                           = (Raise not_set_up, add_call (safe_send channel content embed view file) w)).
  { intros msg. now apply require_logger_None. }
  assert (He : forall msg st, error msg st (add_call (safe_send channel content embed view file) w)
                              = (Raise not_set_up, add_call (safe_send channel content embed view file) w)).
  { intros msg st. unfold error. now apply require_logger_None. }
  destruct (remote (calls w) _) as [v|e].
  - rewrite Hi. cbn [exn_cls not_set_up]. now rewrite He.
  - destruct (exn_cls e); now rewrite He.
Qed.

Lemma emit_before_setup_raises_witness :
  logger initial = None
  /\ info "started" initial = (Raise not_set_up, initial).
Proof.
  split; [reflexivity |].
  apply (emit_before_setup_raises "started" true initial). reflexivity.
Defined.

(* ===================================================================== *)
(** * Properties of log.py: [setup_logger] *)
(* ===================================================================== *)

Lemma assign_deref_eq lg o w : deref lg (assign lg o w) = o.
Proof.
  destruct lg as [|n]; cbn; [reflexivity |].
  now rewrite lookup_insert_eq.
Qed.

Lemma assign_deref_ne lg r o w : r <> lg -> deref r (assign lg o w) = deref r w.
Proof.
  intros Hne. destruct lg as [|n], r as [|m]; cbn; try reflexivity.
  - congruence.
  - rewrite lookup_insert_ne; [reflexivity | congruence].
Qed.

(** The bookkeeping of the manager changes no logger object: it writes
    the [parent] attributes and the placeholders only. *)
Lemma fixupParents_loop_objects fuel name i w :
  let w' := snd (fixupParents_loop fuel name i w) in
  root w' = root w /\ loggers w' = loggers w /\ logger w' = logger w
  /\ records w' = records w /\ calls w' = calls w /\ parents w' = parents w.
Proof.
  revert i w. induction fuel as [|fuel IH]; intros i w; [cbn; auto 10 |].
  destruct i as [[|i']|]; try (cbn; auto 10).
  cbn [fixupParents_loop]. destruct (loggers w !! _); [cbn; auto 10 |].
  cbv zeta. specialize (IH (Py.rfind name "." i')
    (set_placeholders
       (<[Py.prefix name (S i') :=
            match placeholders w !! Py.prefix name (S i') with
            | Some loggerMap => PlaceHolder_append loggerMap name
            | None => [name]
            end]> (placeholders w)) w)).
  cbv zeta in IH. exact IH.
Qed.

Lemma fixupParents_objects name w :
  root (fixupParents name w) = root w
  /\ loggers (fixupParents name w) = loggers w
  /\ logger (fixupParents name w) = logger w
  /\ records (fixupParents name w) = records w
  /\ calls (fixupParents name w) = calls w.
Proof.
  unfold fixupParents.
  pose proof (fixupParents_loop_objects (String.length name) name
                (Py.rfind name "." (String.length name)) w) as H.
  cbv zeta in H.
  destruct (fixupParents_loop _ _ _ _) as [rv w']. cbn [snd] in H.
  cbn. tauto.
Qed.

Lemma fixupChildren_objects loggerMap name w :
  root (fixupChildren loggerMap name w) = root w
  /\ loggers (fixupChildren loggerMap name w) = loggers w
  /\ logger (fixupChildren loggerMap name w) = logger w
  /\ records (fixupChildren loggerMap name w) = records w
  /\ calls (fixupChildren loggerMap name w) = calls w.
Proof.
  unfold fixupChildren. revert w.
  induction loggerMap as [|c l IH]; intros w; [cbn; auto |].
  cbn [fold_left]. destruct (bool_decide _); [apply IH |].
  destruct (IH (set_parents
                  (<[c := Named name]>
                     (<[name := default Root (parents w !! c)]> (parents w))) w))
    as (H1 & H2 & H3 & H4 & H5).
  rewrite H1, H2, H3, H4, H5. cbn. auto.
Qed.

Lemma register_logger_objects name w :
  root (register_logger name w) = root w
  /\ loggers (register_logger name w) = <[name := new_logger]> (loggers w)
  /\ logger (register_logger name w) = logger w
  /\ records (register_logger name w) = records w
  /\ calls (register_logger name w) = calls w.
Proof.
  unfold register_logger. cbv zeta.
  lazymatch goal with
  | |- context [fixupParents name ?x] =>
      destruct (fixupParents_objects name x) as (-> & -> & -> & -> & ->)
  end.
  destruct (placeholders w !! name) as [l|]; [| cbn; auto].
  lazymatch goal with
  | |- context [fixupChildren l name ?x] =>
      destruct (fixupChildren_objects l name x) as (-> & -> & -> & -> & ->)
  end.
  cbn. auto.
Qed.

(** [getLogger] changes no logger object, and registers at most one
    logger, new, under the name. *)
Lemma getLogger_objects name w :
  let w' := snd (getLogger name w) in
  root w' = root w /\ logger w' = logger w
  /\ records w' = records w /\ calls w' = calls w
  /\ (loggers w' = loggers w
      \/ (loggers w !! name = None
          /\ loggers w' = <[name := new_logger]> (loggers w))).
Proof.
  unfold getLogger. destruct (_ || _); [cbn; auto 10 |].
  destruct (loggers w !! name) eqn:Hl; [cbn; auto 10 |].
  cbv zeta. cbn [fst snd].
  destruct (register_logger_objects name w) as (-> & -> & -> & -> & ->).
  auto 10.
Qed.

Lemma getLogger_deref name w r :
  deref r (snd (getLogger name w)) = deref r w.
Proof.
  destruct (getLogger_objects name w) as (Hr & _ & _ & _ & Hl).
  destruct r as [|m]; cbn [deref]; [exact Hr |].
  destruct Hl as [->|(Hn & ->)]; [reflexivity |].
  destruct (decide (name = m)) as [->|Hne].
  - now rewrite lookup_insert_eq, Hn.
  - now rewrite lookup_insert_ne.
Qed.

Lemma getLogger_rest name w :
  logger (snd (getLogger name w)) = logger w
  /\ records (snd (getLogger name w)) = records w
  /\ calls (snd (getLogger name w)) = calls w.
Proof.
  destruct (getLogger_objects name w) as (_ & H1 & H2 & H3 & _). auto.
Qed.

Lemma assign_rest lg o w :
  logger (assign lg o w) = logger w
  /\ records (assign lg o w) = records w
  /\ calls (assign lg o w) = calls w.
Proof. destruct lg; auto. Qed.

(** A logger with a handler of its own has handlers, whatever its
    ancestors are. *)
Lemma hasHandlers_own lg w :
  has_own_handlers (deref lg w) = true -> hasHandlers lg w = true.
Proof.
  intros H. unfold hasHandlers. cbn [hasHandlers_from]. now rewrite H.
Qed.

Lemma hasHandlers_false_own lg w :
  hasHandlers lg w = false -> lg_handlers (deref lg w) = [].
Proof.
  unfold hasHandlers. cbn [hasHandlers_from]. unfold has_own_handlers.
  destruct (lg_handlers (deref lg w)); [reflexivity | discriminate].
Qed.

(** The reference [getLogger] gives is to the root logger or to a logger
    the library then holds under the name. *)
Lemma getLogger_registered name w :
  match fst (getLogger name w) with
  | Root => True
  | Named n => n = name /\ is_Some (loggers (snd (getLogger name w)) !! n)
  end.
Proof.
  unfold getLogger. destruct (_ || _); [exact I |].
  destruct (loggers w !! name) eqn:Hn; cbn [fst snd].
  - split; [reflexivity |]. rewrite Hn. eauto.
  - split; [reflexivity |].
    destruct (register_logger_objects name w) as (_ & -> & _).
    rewrite lookup_insert_eq. eauto.
Qed.

(** Asking again for a logger the library holds changes nothing. *)
Lemma getLogger_again name w1 n :
  fst (getLogger name w1) = Named n -> is_Some (loggers w1 !! n) -> n = name ->
  getLogger name w1 = (Named name, w1).
Proof.
  intros Hf [o Ho] ->. unfold getLogger in *.
  destruct (_ || _); [discriminate Hf |]. now rewrite Ho.
Qed.

Section SetupFacts.

Variable install_root : string.

Lemma configured_deref_eq name fl cl w :
  let lg := fst (getLogger name w) in
  deref lg (configured name fl cl w)
  = mkLogger (Z.min (level_named fl) (level_named cl))
      (lg_handlers (deref lg w)) (lg_propagate (deref lg w)).
Proof.
  intros lg. unfold configured, setLevel. fold lg.
  rewrite assign_deref_eq.
  change (deref lg (set_logger (Some lg) (snd (getLogger name w))))
    with (deref lg (snd (getLogger name w))).
  now rewrite getLogger_deref.
Qed.

Lemma configured_deref_ne name fl cl w r :
  r <> fst (getLogger name w) ->
  deref r (configured name fl cl w) = deref r w.
Proof.
  intros Hne. unfold configured, setLevel.
  rewrite assign_deref_ne by exact Hne.
  change (deref r (set_logger ?x ?y)) with (deref r y).
  apply getLogger_deref.
Qed.

Lemma configured_handlers name fl cl w r :
  lg_handlers (deref r (configured name fl cl w)) = lg_handlers (deref r w)
  /\ lg_propagate (deref r (configured name fl cl w)) = lg_propagate (deref r w).
Proof.
  destruct (decide (r = fst (getLogger name w))) as [->|Hne].
  - now rewrite configured_deref_eq.
  - now rewrite configured_deref_ne.
Qed.

Lemma configured_rest name fl cl w :
  logger (configured name fl cl w) = Some (fst (getLogger name w))
  /\ records (configured name fl cl w) = records w
  /\ calls (configured name fl cl w) = calls w.
Proof.
  unfold configured, setLevel.
  destruct (assign_rest (fst (getLogger name w))
              (mkLogger (Z.min (level_named fl) (level_named cl))
                 (lg_handlers (deref (fst (getLogger name w))
                    (set_logger (Some (fst (getLogger name w))) (snd (getLogger name w)))))
                 (lg_propagate (deref (fst (getLogger name w))
                    (set_logger (Some (fst (getLogger name w))) (snd (getLogger name w))))))
              (set_logger (Some (fst (getLogger name w))) (snd (getLogger name w))))
    as (-> & -> & ->).
  destruct (getLogger_rest name w) as (_ & Hr & Hc).
  cbn [logger records calls set_logger]. auto.
Qed.

Lemma setup_logger_unfold name fl cl w :
  setup_logger install_root name fl cl w
  = let lg := fst (getLogger name w) in
    let w' := configured name fl cl w in
    if negb (hasHandlers lg w') then
      addHandler lg (new_console_handler (level_named cl))
        (addHandler lg (new_file_handler install_root (level_named fl)) w')
    else w'.
Proof.
  unfold setup_logger, configured. destruct (getLogger name w). reflexivity.
Qed.

(** When the test of [setup_logger] finds handlers, its own or those of
    an ancestor, the call ends in the state it tested. *)
Lemma setup_logger_test_true name fl cl w :
  hasHandlers (fst (getLogger name w)) (configured name fl cl w) = true ->
  setup_logger install_root name fl cl w = configured name fl cl w.
Proof. intros H. rewrite setup_logger_unfold. cbv zeta. now rewrite H. Qed.

(** The first initialization: the test of [setup_logger] finds no handler,
    of the logger or of an ancestor, and the two handlers are added, in
    this order. *)
Lemma setup_logger_first name fl cl w :
  let lg := fst (getLogger name w) in
  hasHandlers lg (configured name fl cl w) = false ->
  lg_handlers (deref lg (setup_logger install_root name fl cl w))
  = [new_file_handler install_root (level_named fl);
     new_console_handler (level_named cl)].
Proof.
  intros lg H.
  pose proof (hasHandlers_false_own _ _ H) as Hown.
  subst lg. rewrite setup_logger_unfold. cbv zeta.
  rewrite H. cbn [negb]. unfold addHandler.
  rewrite !assign_deref_eq. cbn [lg_handlers].
  now rewrite Hown.
Qed.

Lemma loggers_assign n o w : loggers (assign (Named n) o w) !! n = Some o.
Proof. cbn. apply lookup_insert_eq. Qed.

Lemma setup_logger_registered name fl cl w n :
  fst (getLogger name w) = Named n ->
  n = name /\ is_Some (loggers (setup_logger install_root name fl cl w) !! n).
Proof.
  intros Hf. pose proof (getLogger_registered name w) as Hr.
  rewrite Hf in Hr. destruct Hr as [-> _]. split; [reflexivity |].
  rewrite setup_logger_unfold. cbv zeta. rewrite Hf.
  destruct (negb _).
  - unfold addHandler at 1. rewrite loggers_assign. eauto.
  - unfold configured, setLevel. rewrite Hf, loggers_assign. eauto.
Qed.

(** After [setup_logger], [getLogger] gives the same logger for the name
    and changes nothing. *)
Lemma getLogger_after_setup name fl cl w :
  getLogger name (setup_logger install_root name fl cl w)
  = (fst (getLogger name w), setup_logger install_root name fl cl w).
Proof.
  destruct (fst (getLogger name w)) as [|n] eqn:Hf.
  - unfold getLogger in *. destruct (_ || _); [reflexivity |].
    destruct (loggers w !! name); discriminate Hf.
  - destruct (setup_logger_registered name fl cl w n Hf) as [-> [o Ho]].
    unfold getLogger in *. destruct (_ || _); [discriminate Hf |].
    now rewrite Ho.
Qed.

Lemma set_logger_same w lg : logger w = Some lg -> set_logger (Some lg) w = w.
Proof. destruct w. cbn. now intros ->. Qed.

Lemma assign_same lg w :
  match lg with Root => True | Named n => is_Some (loggers w !! n) end ->
  assign lg (deref lg w) w = w.
Proof.
  destruct lg as [|n]; cbn.
  - intros _. now destruct w.
  - intros [o Ho]. rewrite Ho. cbn. rewrite insert_id by exact Ho.
    now destruct w.
Qed.

(** C6, as the code has it.  After a first initialization that attached
    the handlers (its test found none, of the logger or of an ancestor), a
    second initialization with the same logger name finds handlers and
    adds none: the logger is left with exactly the file handler and the
    console handler of the first initialization, at the levels given
    then, every other logger is as it was, and no record is emitted.  The
    second call is not a no-op in general: it sets the logger's level to
    the lower of the two levels it is given; it leaves the state as it
    was when the two levels are those of the first call. *)
Theorem setup_logger_second_time (name fl cl fl' cl' : string) (w : World) :
  let lg := fst (getLogger name w) in
  let w1 := setup_logger install_root name fl cl w in
  let w2 := setup_logger install_root name fl' cl' w1 in
  hasHandlers lg (configured name fl cl w) = false ->
  lg_handlers (deref lg w1)
  = [new_file_handler install_root (level_named fl);
     new_console_handler (level_named cl)]
  /\ hasHandlers lg (configured name fl' cl' w1) = true
  /\ lg_handlers (deref lg w2)
     = [new_file_handler install_root (level_named fl);
        new_console_handler (level_named cl)]
  /\ lg_level (deref lg w2) = Z.min (level_named fl') (level_named cl')
  /\ lg_propagate (deref lg w2) = lg_propagate (deref lg w1)
  /\ (forall r, r <> lg -> deref r w2 = deref r w1)
  /\ logger w2 = Some lg /\ logger w1 = Some lg
  /\ records w2 = records w1
  /\ calls w2 = calls w1
  /\ parents w2 = parents w1
  /\ placeholders w2 = placeholders w1
  /\ (level_named fl' = level_named fl -> level_named cl' = level_named cl ->
      w2 = w1).
Proof.
  intros lg w1 w2 H.
  pose proof (setup_logger_first name fl cl w H) as Hh1. fold lg w1 in Hh1.
  pose proof (getLogger_after_setup name fl cl w) as Hg. fold lg w1 in Hg.
  assert (Hfst : fst (getLogger name w1) = lg) by now rewrite Hg.
  assert (Hown : has_own_handlers (deref lg (configured name fl' cl' w1)) = true).
  { destruct (configured_handlers name fl' cl' w1 lg) as [E _].
    unfold has_own_handlers. now rewrite E, Hh1. }
  assert (Ht : hasHandlers lg (configured name fl' cl' w1) = true)
    by now apply hasHandlers_own.
  assert (E2 : w2 = configured name fl' cl' w1).
  { subst w2. apply setup_logger_test_true. now rewrite Hfst. }
  pose proof (configured_deref_eq name fl' cl' w1) as Hd. cbv zeta in Hd.
  rewrite Hfst in Hd.
  assert (Hl1 : logger w1 = Some lg).
  { subst w1. rewrite setup_logger_unfold. cbv zeta. fold lg. rewrite H.
    cbn [negb].
    destruct (assign_rest lg
                (mkLogger
                   (lg_level (deref lg
                      (addHandler lg (new_file_handler install_root (level_named fl))
                         (configured name fl cl w))))
                   (lg_handlers (deref lg
                      (addHandler lg (new_file_handler install_root (level_named fl))
                         (configured name fl cl w)))
                    ++ [new_console_handler (level_named cl)])
                   (lg_propagate (deref lg
                      (addHandler lg (new_file_handler install_root (level_named fl))
                         (configured name fl cl w)))))
                (addHandler lg (new_file_handler install_root (level_named fl))
                   (configured name fl cl w))) as (Ha & _).
    unfold addHandler at 1. rewrite Ha.
    unfold addHandler.
    destruct (assign_rest lg
                (mkLogger (lg_level (deref lg (configured name fl cl w)))
                   (lg_handlers (deref lg (configured name fl cl w))
                    ++ [new_file_handler install_root (level_named fl)])
                   (lg_propagate (deref lg (configured name fl cl w))))
                (configured name fl cl w)) as (-> & _).
    apply configured_rest. }
  destruct (configured_rest name fl' cl' w1) as (Hl2 & Hr2 & Hc2).
  rewrite Hfst in Hl2.
  split; [exact Hh1 |]. split; [exact Ht |].
  rewrite E2.
  split; [now rewrite Hd |]. split; [now rewrite Hd |].
  split; [now rewrite Hd |].
  split; [intros r Hne; apply configured_deref_ne; now rewrite Hfst |].
  split; [exact Hl2 |]. split; [exact Hl1 |].
  split; [exact Hr2 |]. split; [exact Hc2 |].
  assert (Hshape : configured name fl' cl' w1
                   = assign lg
                       (mkLogger (Z.min (level_named fl') (level_named cl'))
                          (lg_handlers (deref lg w1)) (lg_propagate (deref lg w1)))
                       w1).
  { unfold configured, setLevel. rewrite Hg. cbn [fst snd].
    now rewrite (set_logger_same w1 lg Hl1). }
  split; [rewrite Hshape; now destruct lg |].
  split; [rewrite Hshape; now destruct lg |].
  intros Efl Ecl. rewrite Hshape, Efl, Ecl.
  assert (Hlev : lg_level (deref lg w1) = Z.min (level_named fl) (level_named cl)).
  { subst w1. rewrite setup_logger_unfold. cbv zeta. fold lg. rewrite H.
    cbn [negb]. unfold addHandler. rewrite !assign_deref_eq.
    cbn [lg_level]. pose proof (configured_deref_eq name fl cl w) as Hd0.
    cbv zeta in Hd0. fold lg in Hd0. now rewrite Hd0. }
  rewrite <- Hlev.
  replace (mkLogger (lg_level (deref lg w1)) (lg_handlers (deref lg w1))
             (lg_propagate (deref lg w1))) with (deref lg w1)
    by now destruct (deref lg w1).
  apply assign_same.
  destruct lg as [|n] eqn:Elg; [exact I |].
  destruct (setup_logger_registered name fl cl w n Elg) as [_ Hreg].
  exact Hreg.
Qed.

End SetupFacts.

Lemma setup_logger_second_time_witness :
  hasHandlers (fst (getLogger "DungeonBot" initial))
    (configured "DungeonBot" "INFO" "INFO" initial) = false
  /\ lg_handlers
       (deref (Named "DungeonBot")
          (setup_logger "/srv/bot" "DungeonBot" "DEBUG" "WARNING" ready))
     = [new_file_handler "/srv/bot" INFO; new_console_handler INFO]
  /\ lg_level
       (deref (Named "DungeonBot")
          (setup_logger "/srv/bot" "DungeonBot" "DEBUG" "WARNING" ready))
     = DEBUG.
Proof.
  split; [reflexivity |].
  destruct (setup_logger_second_time "/srv/bot" "DungeonBot" "INFO" "INFO"
              "DEBUG" "WARNING" initial eq_refl)
    as (_ & _ & Hh & Hl & _).
  split; [exact Hh | exact Hl].
Defined.

(** C6 fails as stated.  After a first initialization at INFO, a second
    one with the same logger name, at DEBUG, finds the handlers in place
    and yet changes the state: the logger's level goes from INFO to DEBUG,
    the two handlers staying at INFO. *)
Lemma setup_logger_again_is_not_a_noop :
  let w2 := setup_logger "/srv/bot" "DungeonBot" "DEBUG" "DEBUG" ready in
  hasHandlers (Named "DungeonBot") ready = true
  /\ lg_level (deref (Named "DungeonBot") ready) = INFO
  /\ lg_level (deref (Named "DungeonBot") w2) = DEBUG
  /\ w2 <> ready.
Proof.
  cbv zeta. split; [reflexivity |]. split; [reflexivity |].
  split; [reflexivity |].
  intros H.
  apply (f_equal (fun w => lg_level (deref (Named "DungeonBot") w))) in H.
  vm_compute in H. discriminate H.
Qed.

(* ===================================================================== *)
(** * Properties of log.py: the dispatcher *)
(* ===================================================================== *)

Section DispatcherFacts.

Variable remote : list Call -> Call -> outcome (option handle).

Lemma safe_send_message_Raise channel content embed view file w lg e :
  logger w = Some lg ->
  remote (calls w) (safe_send channel content embed view file) = Raise e ->
  safe_send_message remote channel content embed view file w
  = (Ok None,
     add_record (mkRecord lg ERROR (send_error_msg channel e) true)
       (add_call (safe_send channel content embed view file) w)).
Proof.
  intros Hlg Hr.
  unfold safe_send_message, try_except, bind, await. rewrite Hr.
  unfold send_error_msg.
  destruct (exn_cls e);
    rewrite (error_Some _ _ _ lg) by (now rewrite logger_add_call);
    reflexivity.
Qed.

Lemma safe_send_message_Ok channel content embed view file w lg v :
  logger w = Some lg ->
  remote (calls w) (safe_send channel content embed view file) = Ok v ->
  safe_send_message remote channel content embed view file w
  = (Ok v,
     add_record (mkRecord lg INFO ("Message sent in " +:+ channel_name channel) false)
       (add_call (safe_send channel content embed view file) w)).
Proof.
  intros Hlg Hr.
  unfold safe_send_message, try_except, bind, await. rewrite Hr.
  rewrite (info_Some _ _ lg) by (now rewrite logger_add_call).
  reflexivity.
Qed.

(** C3.  With the log sink set up, whatever exception the rate limiter's
    [safe_send] raises (Forbidden, NotFound or any other), the call of
    [safe_send_message] does not raise: it returns [None], and hands the
    logger exactly one record, at level ERROR, that names the channel
    (Forbidden, NotFound) or carries the exception's text (any other). *)
Theorem safe_send_message_never_raises
  channel content embed view file (w : World) (lg : logger_ref) (e : exn) :
  logger w = Some lg ->
  remote (calls w) (safe_send channel content embed view file) = Raise e ->
  exists w',
    safe_send_message remote channel content embed view file w = (Ok None, w')
    /\ records w' = records w ++ [mkRecord lg ERROR (send_error_msg channel e) true]
    /\ (exn_cls e = Forbidden ->
        send_error_msg channel e
        = "Bot has not the permission to send messages in " +:+ channel_name channel)
    /\ (exn_cls e = NotFound ->
        send_error_msg channel e = "Channel " +:+ channel_name channel +:+ " not found")
    /\ (exn_cls e <> Forbidden -> exn_cls e <> NotFound ->
        send_error_msg channel e = "Error when sending message: " +:+ exn_str e).
Proof.
  intros Hlg Hr. eexists. split.
  - apply (safe_send_message_Raise _ _ _ _ _ _ _ _ Hlg Hr).
  - split; [reflexivity |]. unfold send_error_msg.
    repeat split; intros; destruct (exn_cls e); congruence.
Qed.

Lemma safe_followup_Ok i content embed view file ephemeral w v :
  remote (calls w) (followup_call i content embed view file ephemeral) = Ok v ->
  safe_followup remote i content embed view file ephemeral w
  = (Ok v, add_call (followup_call i content embed view file ephemeral) w).
Proof.
  intros Hr. unfold safe_followup, try_except, await.
  fold (followup_call i content embed view file ephemeral). now rewrite Hr.
Qed.

Lemma safe_followup_Raise i content embed view file ephemeral w lg e :
  logger w = Some lg ->
  remote (calls w) (followup_call i content embed view file ephemeral) = Raise e ->
  safe_followup remote i content embed view file ephemeral w
  = (Ok None,
     add_record (mkRecord lg ERROR ("Error during the followup: " +:+ exn_str e) true)
       (add_call (followup_call i content embed view file ephemeral) w)).
Proof.
  intros Hlg Hr. unfold safe_followup, try_except, await, bind.
  fold (followup_call i content embed view file ephemeral). rewrite Hr.
  rewrite (error_Some _ _ _ lg) by (now rewrite logger_add_call).
  reflexivity.
Qed.

Lemma safe_respond_Ok i content embed view file ephemeral w v :
  remote (calls w) (respond_call i content embed view file ephemeral) = Ok v ->
  safe_respond remote i content embed view file ephemeral w
  = (Ok v, add_call (respond_call i content embed view file ephemeral) w).
Proof.
  intros Hr. unfold safe_respond, try_except, await.
  fold (respond_call i content embed view file ephemeral). now rewrite Hr.
Qed.

Lemma safe_respond_Raise i content embed view file ephemeral w lg e :
  logger w = Some lg ->
  remote (calls w) (respond_call i content embed view file ephemeral) = Raise e ->
  exn_cls e <> InteractionResponded ->
  safe_respond remote i content embed view file ephemeral w
  = (Ok None,
     add_record
       (mkRecord lg ERROR
          ("Error when responding to the interaction: " +:+ exn_str e) true)
       (add_call (respond_call i content embed view file ephemeral) w)).
Proof.
  intros Hlg Hr Hne. unfold safe_respond, try_except, await, bind.
  fold (respond_call i content embed view file ephemeral). rewrite Hr.
  destruct (exn_cls e); try congruence;
    rewrite (error_Some _ _ _ lg) by (now rewrite logger_add_call);
    reflexivity.
Qed.

(** The branch of the already consumed response slot: the followup runs on
    the state the first request left, and its value is dropped. *)
Lemma safe_respond_responded i content embed view file ephemeral w e :
  remote (calls w) (respond_call i content embed view file ephemeral) = Raise e ->
  exn_cls e = InteractionResponded ->
  safe_respond remote i content embed view file ephemeral w
  = (safe_followup remote i content embed view file ephemeral ;;; ret None)
      (add_call (respond_call i content embed view file ephemeral) w).
Proof.
  intros Hr He. unfold safe_respond at 1. unfold try_except, await.
  fold (respond_call i content embed view file ephemeral). rewrite Hr, He.
  reflexivity.
Qed.

Lemma safe_followup_effect i content embed view file ephemeral w lg :
  logger w = Some lg ->
  let c := followup_call i content embed view file ephemeral in
  exists v w',
    safe_followup remote i content embed view file ephemeral w = (Ok v, w')
    /\ logger w' = Some lg
    /\ calls w' = calls w ++ [c]
    /\ records w'
       = records w
         ++ match remote (calls w) c with
            | Ok _ => []
            | Raise e =>
                [mkRecord lg ERROR ("Error during the followup: " +:+ exn_str e) true]
            end.
Proof.
  intros Hlg c. destruct (remote (calls w) c) as [v|e] eqn:Hr.
  - exists v, (add_call c w). rewrite (safe_followup_Ok _ _ _ _ _ _ _ _ Hr).
    simpl_world. rewrite app_nil_r. auto.
  - eexists None, _. rewrite (safe_followup_Raise _ _ _ _ _ _ _ _ _ Hlg Hr).
    repeat split; auto.
Qed.

Lemma safe_respond_effect i content embed view file ephemeral w lg :
  logger w = Some lg ->
  let c1 := respond_call i content embed view file ephemeral in
  let c2 := followup_call i content embed view file ephemeral in
  exists v w',
    safe_respond remote i content embed view file ephemeral w = (Ok v, w')
    /\ logger w' = Some lg
    /\ match remote (calls w) c1 with
       | Ok r => v = r /\ calls w' = calls w ++ [c1] /\ records w' = records w
       | Raise e =>
           v = None
           /\ if decide (exn_cls e = InteractionResponded) then
                calls w' = calls w ++ [c1; c2]
                /\ records w'
                   = records w
                     ++ match remote (calls w ++ [c1]) c2 with
                        | Ok _ => []
                        | Raise e2 =>
                            [mkRecord lg ERROR
                               ("Error during the followup: " +:+ exn_str e2) true]
                        end
              else
                calls w' = calls w ++ [c1]
                /\ records w'
                   = records w
                     ++ [mkRecord lg ERROR
                           ("Error when responding to the interaction: "
                              +:+ exn_str e) true]
       end.
Proof.
  intros Hlg c1 c2. destruct (remote (calls w) c1) as [r|e] eqn:Hr.
  - exists r, (add_call c1 w). rewrite (safe_respond_Ok _ _ _ _ _ _ _ _ Hr).
    simpl_world. auto.
  - destruct (decide (exn_cls e = InteractionResponded)) as [He|He].
    + rewrite (safe_respond_responded _ _ _ _ _ _ _ _ Hr He). unfold bind.
      destruct (safe_followup_effect i content embed view file ephemeral
                  (add_call c1 w) lg Hlg) as (v & w' & Hf & Hl & Hc & Hn).
      fold c1. rewrite Hf.
      exists None, w'. simpl_world.
      rewrite Hc, <- app_assoc. auto.
    + rewrite (safe_respond_Raise _ _ _ _ _ _ _ _ _ Hlg Hr He).
      eexists None, _. repeat split; auto.
Qed.

(** C2, as the code has it.  With the log sink set up, the three
    operations differ.  A call of [safe_send_message] makes exactly one
    request, through the rate limiter's [safe_send], and hands the logger
    exactly one record: at level INFO, naming the channel, when the
    request returns, and at level ERROR, with the message of C3, when it
    raises.  A call of [safe_followup] makes exactly one request, and
    hands the logger no record when the request returns and exactly one,
    at level ERROR with the exception's text, when it raises.  A call of
    [safe_respond] makes one request; when it returns, no record; when it
    raises InteractionResponded, a second request, the followup, with no
    record when the followup returns and the followup's ERROR record when
    it raises; when it raises anything else, no second request and exactly
    one ERROR record with the exception's text. *)
Theorem dispatcher_entries_and_requests (w : World) (lg : logger_ref) :
  logger w = Some lg ->
  (forall channel content embed view file,
     let c := safe_send channel content embed view file in
     let w' := snd (safe_send_message remote channel content embed view file w) in
     calls w' = calls w ++ [c]
     /\ records w'
        = records w
          ++ [match remote (calls w) c with
              | Ok _ =>
                  mkRecord lg INFO ("Message sent in " +:+ channel_name channel) false
              | Raise e => mkRecord lg ERROR (send_error_msg channel e) true
              end])
  /\ (forall i content embed view file ephemeral,
     let c := followup_call i content embed view file ephemeral in
     let w' := snd (safe_followup remote i content embed view file ephemeral w) in
     calls w' = calls w ++ [c]
     /\ records w'
        = records w
          ++ match remote (calls w) c with
             | Ok _ => []
             | Raise e =>
                 [mkRecord lg ERROR ("Error during the followup: " +:+ exn_str e) true]
             end)
  /\ (forall i content embed view file ephemeral,
     let c1 := respond_call i content embed view file ephemeral in
     let c2 := followup_call i content embed view file ephemeral in
     let w' := snd (safe_respond remote i content embed view file ephemeral w) in
     match remote (calls w) c1 with
     | Ok _ => calls w' = calls w ++ [c1] /\ records w' = records w
     | Raise e =>
         if decide (exn_cls e = InteractionResponded) then
           calls w' = calls w ++ [c1; c2]
           /\ records w'
              = records w
                ++ match remote (calls w ++ [c1]) c2 with
                   | Ok _ => []
                   | Raise e2 =>
                       [mkRecord lg ERROR
                          ("Error during the followup: " +:+ exn_str e2) true]
                   end
         else
           calls w' = calls w ++ [c1]
           /\ records w'
              = records w
                ++ [mkRecord lg ERROR
                      ("Error when responding to the interaction: "
                         +:+ exn_str e) true]
     end).
Proof.
  intros Hlg. split; [| split].
  - intros channel content embed view file c w'. subst w'.
    destruct (remote (calls w) c) as [v|e] eqn:Hr.
    + rewrite (safe_send_message_Ok _ _ _ _ _ _ _ _ Hlg Hr). simpl_world.
      split; reflexivity.
    + rewrite (safe_send_message_Raise _ _ _ _ _ _ _ _ Hlg Hr). simpl_world.
      split; reflexivity.
  - intros i content embed view file ephemeral c w'. subst w'.
    destruct (safe_followup_effect i content embed view file ephemeral w lg Hlg)
      as (v & w' & -> & _ & Hc & Hn). auto.
  - intros i content embed view file ephemeral c1 c2 w'. subst w'.
    destruct (safe_respond_effect i content embed view file ephemeral w lg Hlg)
      as (v & w' & -> & _ & H). cbn [snd]. fold c1 c2 in H.
    destruct (remote (calls w) c1) as [r|e]; [tauto |].
    destruct H as [_ H]. exact H.
Qed.

(** The value of [discord.Colour.<name>()], by name. *)
Variable Colour_named : string -> Colour.

Lemma safe_respond_total i content embed view file ephemeral w lg :
  logger w = Some lg ->
  exists v w',
    safe_respond remote i content embed view file ephemeral w = (Ok v, w')
    /\ Forall (fun c => through_rate_limiter c = true)
         (drop (length (calls w)) (calls w')).
Proof.
  intros Hlg.
  destruct (safe_respond_effect i content embed view file ephemeral w lg Hlg)
    as (v & w' & Hs & _ & H).
  exists v, w'. split; [exact Hs |].
  destruct (remote (calls w) _) as [r|e].
  - destruct H as (_ & -> & _). rewrite drop_app_length.
    repeat constructor.
  - destruct H as [_ H]. destruct (decide _); destruct H as [-> _];
      rewrite drop_app_length; repeat constructor.
Qed.

(** C4, as the code has it.  With the log sink set up, [success] and
    [failure] first hand the logger their record.  For an interaction the
    notification then goes through [safe_respond], as an ephemeral
    response without a deletion delay: the call does not raise, and every
    request it makes goes through the rate limiter.  For a command context
    the notification is sent by [ctx.send] with the deletion delay, not
    through the rate limiter, and the outcome of that call, value or
    exception, is the outcome of [success] or [failure]. *)
Theorem notification_delivery
  (msg : string) (delete_after : Z) (stacktrace : bool)
  (w : World) (lg : logger_ref) :
  logger w = Some lg ->
  let w_s := add_record (mkRecord lg INFO msg false) w in
  let w_f := add_record (mkRecord lg ERROR msg stacktrace) w in
  let e_s := mkEmbed (Some ":white_check_mark: Success") (Colour_named "green") msg None in
  let e_f := mkEmbed (Some ":x: Error") (Colour_named "red") msg None in
  (forall i,
     success remote Colour_named (TInteraction i) msg delete_after w
     = safe_respond remote i None (Some e_s) None None true w_s
     /\ failure remote Colour_named (TInteraction i) msg delete_after stacktrace w
        = safe_respond remote i None (Some e_f) None None true w_f
     /\ (exists v w',
           success remote Colour_named (TInteraction i) msg delete_after w = (Ok v, w')
           /\ Forall (fun c => through_rate_limiter c = true)
                (drop (length (calls w)) (calls w')))
     /\ (exists v w',
           failure remote Colour_named (TInteraction i) msg delete_after stacktrace w
           = (Ok v, w')
           /\ Forall (fun c => through_rate_limiter c = true)
                (drop (length (calls w)) (calls w'))))
  /\ (forall c,
     let c_s := ctx_send c (with_footer e_s c) delete_after in
     let c_f := ctx_send c (with_footer e_f c) delete_after in
     success remote Colour_named (TContext c) msg delete_after w
     = (remote (calls w) c_s, add_call c_s w_s)
     /\ failure remote Colour_named (TContext c) msg delete_after stacktrace w
        = (remote (calls w) c_f, add_call c_f w_f)
     /\ through_rate_limiter c_s = false
     /\ through_rate_limiter c_f = false).
Proof.
  intros Hlg w_s w_f e_s e_f.
  assert (Hs : forall ctx,
             success remote Colour_named ctx msg delete_after w
             = client remote ctx msg (Some ":white_check_mark: Success")
                 (Colour_named "green") delete_after w_s).
  { intros ctx. unfold success, bind. now rewrite (info_Some _ _ _ Hlg). }
  assert (Hf : forall ctx,
             failure remote Colour_named ctx msg delete_after stacktrace w
             = client remote ctx msg (Some ":x: Error")
                 (Colour_named "red") delete_after w_f).
  { intros ctx. unfold failure, bind. now rewrite (error_Some _ _ _ _ Hlg). }
  split.
  - intros i. rewrite Hs, Hf. cbn [client]. fold e_s e_f.
    split; [reflexivity |]. split; [reflexivity |]. split.
    + apply (safe_respond_total i None (Some e_s) None None true w_s lg).
      exact Hlg.
    + apply (safe_respond_total i None (Some e_f) None None true w_f lg).
      exact Hlg.
  - intros c c_s c_f. rewrite Hs, Hf. auto.
Qed.

End DispatcherFacts.

(** ** The dispatcher on concrete inputs *)

Lemma ready_logger : logger ready = Some (Named "DungeonBot").
Proof. reflexivity. Qed.

Lemma safe_send_message_never_raises_witness :
  logger ready = Some (Named "DungeonBot")
  /\ refuses Forbidden (calls ready)
       (safe_send sample_channel (Some "hello") None None None)
     = Raise (Exn Forbidden "403 Forbidden (error code: 50013): Missing Permissions")
  /\ exists w',
      safe_send_message (refuses Forbidden) sample_channel (Some "hello")
        None None None ready = (Ok None, w')
      /\ records w'
         = [mkRecord (Named "DungeonBot") ERROR
              "Bot has not the permission to send messages in general" true].
Proof.
  split; [reflexivity |]. split; [reflexivity |].
  destruct (safe_send_message_never_raises (refuses Forbidden) sample_channel
              (Some "hello") None None None ready (Named "DungeonBot")
              (Exn Forbidden "403 Forbidden (error code: 50013): Missing Permissions")
              eq_refl eq_refl) as (w' & Hrun & Hrec & _).
  exists w'. split; [exact Hrun |]. rewrite Hrec. reflexivity.
Defined.

(** C1, the code at an interaction whose response slot is consumed, with
    the payload [content = "done"].  [safe_followup] delivers the payload
    and returns the value of the request.  [safe_respond] makes the refused
    request and then the same followup request, hands the logger no
    record, and returns [None]: the value of the followup is dropped. *)
Example safe_respond_drops_followup_value :
  let i := sample_interaction in
  let c1 := respond_call i (Some "done") None None None false in
  let c2 := followup_call i (Some "done") None None None false in
  safe_followup already_responded i (Some "done") None None None false ready
  = (Ok (Some 7%nat), add_call c2 ready)
  /\ safe_respond already_responded i (Some "done") None None None false ready
     = (Ok None, add_call c2 (add_call c1 ready)).
Proof. split; reflexivity. Qed.

(** C2 fails as stated.  With the log sink set up, a call of
    [safe_respond] that succeeds hands the logger no record, not one; and
    a call of [safe_respond] on a consumed response slot makes two
    requests, not at most one. *)
Lemma one_entry_one_request_fails :
  let i := sample_interaction in
  logger ready = Some (Named "DungeonBot")
  /\ (let w' := snd (safe_respond answers i (Some "done") None None None false ready) in
      length (records w') <> S (length (records ready)))
  /\ (let w' := snd (safe_respond already_responded i (Some "done") None None None
                       false ready) in
      ~ (length (calls w') <= S (length (calls ready)))%nat).
Proof.
  split; [reflexivity |]. split; cbv zeta.
  - vm_compute. discriminate.
  - vm_compute. lia.
Qed.

Lemma dispatcher_entries_and_requests_witness :
  logger ready = Some (Named "DungeonBot")
  /\ (let w' := snd (safe_send_message answers sample_channel (Some "hello")
                       None None None ready) in
      calls w' = [safe_send sample_channel (Some "hello") None None None]
      /\ records w'
         = [mkRecord (Named "DungeonBot") INFO "Message sent in general" false]).
Proof.
  split; [reflexivity |].
  apply (dispatcher_entries_and_requests answers ready (Named "DungeonBot") eq_refl).
Defined.

(** C4 fails as stated.  With the log sink set up, [success] on a command
    context whose [send] is refused raises the exception to its caller,
    and the one call it made did not go through the rate limiter. *)
Lemma notification_failure_reaches_caller :
  logger ready = Some (Named "DungeonBot")
  /\ exists e w',
      success (refuses Forbidden) sample_palette (TContext sample_context)
        "Saved" 5 ready = (Raise e, w')
      /\ exn_cls e = Forbidden
      /\ exists c, calls w' = [c] /\ through_rate_limiter c = false.
Proof.
  split; [reflexivity |]. eexists _, _. split; [reflexivity |].
  split; [reflexivity |]. eexists. split; reflexivity.
Qed.

Lemma notification_delivery_witness :
  logger ready = Some (Named "DungeonBot")
  /\ exists v w',
      failure answers sample_palette (TInteraction sample_interaction)
        "No such role" 5 false ready = (Ok v, w').
Proof.
  split; [reflexivity |].
  destruct (notification_delivery answers sample_palette "No such role" 5 false
              ready (Named "DungeonBot") eq_refl) as [Hi _].
  destruct (Hi sample_interaction) as (_ & _ & _ & v & w' & Hrun & _).
  exists v, w'. exact Hrun.
Defined.

(* ===================================================================== *)
(** * Properties of utils.py *)
(* ===================================================================== *)

Section ViewsFacts.

Import utils.

Context {ViewObj : Type} `{EqDecision ViewObj} {Class : Type}.
Variable type_of : ViewObj -> Class.
Variable issubclass : Class -> Class -> bool.
Variable str_of_types : ViewTypes (Class := Class) -> string.

Lemma list_remove_head (x : ViewObj) l : list_remove x (x :: l) = Some l.
Proof. cbn. now rewrite decide_True. Qed.

Lemma list_remove_skip (x y : ViewObj) l :
  y <> x -> list_remove x (y :: l) = cons y <$> list_remove x l.
Proof. intros Hne. cbn. now rewrite decide_False. Qed.

Lemma list_remove_elem_of (x : ViewObj) l :
  x ∈ l -> is_Some (list_remove x l).
Proof.
  induction l as [|y l IH]; intros Hin.
  - now apply elem_of_nil in Hin.
  - destruct (decide (y = x)) as [->|Hne].
    + rewrite list_remove_head. eauto.
    + rewrite list_remove_skip by exact Hne.
      apply elem_of_cons in Hin as [->|Hin]; [congruence |].
      destruct (IH Hin) as [l' ->]. cbn. eauto.
Qed.

(** Removing, one by one, views the bot stores never fails, and leaves
    the views the bot stores as they were. *)
Lemma remove_all_stored rs (bot : list ViewObj) :
  Forall (fun x => x ∈ bot) rs -> remove_all rs bot = (Ok tt, bot).
Proof.
  induction 1 as [|x rs Hx _ IH]; [reflexivity |].
  cbn [remove_all]. unfold persistent_views.
  destruct (list_remove_elem_of x bot Hx) as [l' ->]. exact IH.
Qed.

Lemma remove_all_filter (P : ViewObj -> Prop) `{!forall x, Decision (P x)} bot :
  remove_all (filter P bot) bot = (Ok tt, bot).
Proof.
  apply remove_all_stored. apply Forall_forall. intros x Hx.
  now apply list_elem_of_filter in Hx as [_ Hx].
Qed.

Lemma filter_partition_length (P : ViewObj -> Prop) `{!forall x, Decision (P x)} l :
  (length (filter (fun x => ~ P x) l) + length (filter P l) = length l)%nat.
Proof.
  induction l as [|a l IH]; [reflexivity |].
  destruct (decide (P a)) as [Ha|Ha].
  - rewrite (filter_cons_True P) by exact Ha.
    rewrite (filter_cons_False (fun x => ~ P x)) by tauto. cbn. lia.
  - rewrite (filter_cons_False P) by exact Ha.
    rewrite (filter_cons_True (fun x => ~ P x)) by exact Ha. cbn. lia.
Qed.

(** C9 fails in the code.  With the log sink set up, for every list of
    persistent views the bot stores: without view types, [clear_views]
    removes nothing and hands the logger one WARNING record, as claimed;
    with view types, it removes nothing either.  Each [remove] acts on a
    list that [bot.persistent_views] built for it, so the bot stores after
    the call the views it stored before it, the matching ones among them,
    while the one INFO record reports the number of matching views as
    removed. *)
Theorem clear_views_removes_nothing
  (views : list ViewObj) (w : World) (lg : logger_ref) :
  logger w = Some lg ->
  clear_views type_of issubclass str_of_types None views w
  = (Ok tt, views,
     add_record
       (mkRecord lg WARNING "No view types provided to clear_views; skipping." false) w)
  /\ forall view_types,
      let matching :=
        filter (fun v => isinstance type_of issubclass v view_types = true) views in
      clear_views type_of issubclass str_of_types (Some view_types) views w
      = (Ok tt, views,
         add_record
           (mkRecord lg INFO
              ("Removed " +:+ Py.str_of_nat (length matching)
                 +:+ " persistent views of types " +:+ str_of_types view_types)
              false) w)
      /\ (forall v, v ∈ matching
                    <-> v ∈ views /\ isinstance type_of issubclass v view_types = true)
      /\ (matching <> [] ->
          views
          <> filter (fun v => isinstance type_of issubclass v view_types <> true) views).
Proof.
  intros Hlg. split.
  - unfold clear_views. now rewrite (warning_Some _ _ _ Hlg).
  - intros view_types matching. split; [| split].
    + unfold clear_views, persistent_views. fold matching.
      unfold matching. rewrite remove_all_filter. fold matching.
      now rewrite (info_Some _ _ _ Hlg).
    + intros v. unfold matching. rewrite list_elem_of_filter. tauto.
    + intros Hm E. apply (f_equal length) in E.
      pose proof (filter_partition_length
                    (fun v => isinstance type_of issubclass v view_types = true)
                    views) as Hlen.
      fold matching in Hlen.
      set (n := length (filter _ views)) in Hlen.
      change (length views = n) in E.
      destruct matching; [congruence | cbn [length] in Hlen; lia].
Qed.

End ViewsFacts.

Lemma clear_views_removes_nothing_witness :
  logger ready = Some (Named "DungeonBot")
  /\ utils.clear_views (fun v : nat => if Nat.even v then "RoleView" else "TicketView")
       (fun a b : string => bool_decide (a = b))
       (fun _ => "<class 'RoleView'>")
       (Some (utils.Single "RoleView")) [1; 2; 3; 4]%nat ready
     = (Ok tt, [1; 2; 3; 4]%nat,
        add_record
          (mkRecord (Named "DungeonBot") INFO
             "Removed 2 persistent views of types <class 'RoleView'>" false) ready).
Proof.
  split; [reflexivity |].
  destruct (clear_views_removes_nothing
              (fun v : nat => if Nat.even v then "RoleView" else "TicketView")
              (fun a b : string => bool_decide (a = b))
              (fun _ => "<class 'RoleView'>")
              [1; 2; 3; 4]%nat ready (Named "DungeonBot") eq_refl) as [_ H].
  destruct (H (utils.Single "RoleView")) as [-> _]. reflexivity.
Defined.

(* ===================================================================== *)
(** * Properties of the Python string functions *)
(* ===================================================================== *)

Ltac each_char c :=
  destruct c as [[] [] [] [] [] [] [] []].

(** [int(s, 16)] on sample strings: digits, a sign, underscores, the
    [0x] prefix, white space. *)
Example int16_plain : Py.int16 "aabbcc" = Some 11189196.
Proof. reflexivity. Qed.
Example int16_sign : Py.int16 "+abcde" = Some 703710.
Proof. reflexivity. Qed.
Example int16_us : Py.int16 "00_0ff" = Some 255.
Proof. reflexivity. Qed.
Example int16_us2 : Py.int16 "00__ff" = None.
Proof. reflexivity. Qed.
Example int16_pre : Py.int16 "0x_1fe" = Some 510.
Proof. reflexivity. Qed.
Example int16_pre2 : Py.int16 "0x__fe" = None.
Proof. reflexivity. Qed.
Example int16_neg : Py.int16 "-0x1fe" = Some (-510).
Proof. reflexivity. Qed.
Example int16_bad : Py.int16 "xxyyzz" = None.
Proof. reflexivity. Qed.
Example int16_sp : Py.int16 "  aabb" = Some 43707.
Proof. reflexivity. Qed.
Example int16_empty : Py.int16 "" = None.
Proof. reflexivity. Qed.

Lemma isspace_lower_char c : Py.isspace (Py.lower_char c) = Py.isspace c.
Proof. each_char c; reflexivity. Qed.

(** What a hexadecimal digit is not. *)
Lemma hex_digit_facts c :
  Py.is_hex_digit c = true ->
  Py.isspace c = false /\ Py.c_isspace c = false
  /\ Py.is_underscore c = false
  /\ Py.is_char "+" c = false /\ Py.is_char "-" c = false
  /\ Py.is_char "x" c = false /\ Py.is_char "X" c = false
  /\ (Py.code c <? 128)%N = true
  /\ c <> "#"%char
  /\ Py.is_hex_digit (Py.lower_char c) = true.
Proof.
  intros H. each_char c; vm_compute in H; try discriminate H;
    repeat split; try reflexivity; discriminate.
Qed.

Lemma hex_digit_value_range c d :
  Py.hex_digit_value c = Some d -> 0 <= d < 16.
Proof.
  intros H. each_char c; vm_compute in H; try discriminate H;
    injection H as <-; lia.
Qed.

Lemma is_hex_digit_value c :
  Py.is_hex_digit c = true -> exists d, Py.hex_digit_value c = Some d.
Proof.
  unfold Py.is_hex_digit. destruct (Py.hex_digit_value c); [eauto | discriminate].
Qed.

Lemma all_cons p c s :
  Py.all p (String c s) = true <-> p c = true /\ Py.all p s = true.
Proof. cbn. apply andb_true_iff. Qed.

Lemma all_impl (p q : ascii -> bool) s :
  (forall c, p c = true -> q c = true) ->
  Py.all p s = true -> Py.all q s = true.
Proof.
  intros Hpq. induction s as [|c s IH]; [reflexivity |].
  rewrite !all_cons. intros [Hc Hs]. auto.
Qed.

Lemma all_map (p : ascii -> bool) f s :
  (forall c, p c = true -> p (f c) = true) ->
  Py.all p s = true -> Py.all p (Py.map f s) = true.
Proof.
  intros Hf. induction s as [|c s IH]; [reflexivity |].
  cbn [Py.map]. rewrite !all_cons. intros [Hc Hs]. auto.
Qed.

Lemma all_double_chars p s :
  Py.all p s = true -> Py.all p (Py.double_chars s) = true.
Proof.
  induction s as [|c s IH]; [reflexivity |].
  cbn [Py.double_chars]. rewrite !all_cons. intros [Hc Hs]. auto.
Qed.

Lemma length_double_chars s :
  String.length (Py.double_chars s) = (2 * String.length s)%nat.
Proof. induction s as [|c s IH]; cbn; [reflexivity | rewrite IH; lia]. Qed.

(** ** [strip] *)

Lemma lstrip_nonspace_head c s :
  Py.isspace c = false -> Py.lstrip (String c s) = String c s.
Proof. intros H. cbn. now rewrite H. Qed.

Lemma rstrip_all_space r : Py.all Py.isspace r = true -> Py.rstrip r = "".
Proof.
  induction r as [|c r IH]; [reflexivity |].
  rewrite all_cons. intros [Hc Hr]. cbn. now rewrite (IH Hr), Hc.
Qed.

Lemma lstrip_all_space l : Py.all Py.isspace l = true -> Py.lstrip l = "".
Proof.
  induction l as [|c l IH]; [reflexivity |].
  rewrite all_cons. intros [Hc Hl]. cbn. now rewrite Hc, (IH Hl).
Qed.

Lemma append_cons c (t r : string) : String c t +:+ r = String c (t +:+ r).
Proof. reflexivity. Qed.

Lemma append_nil (r : string) : "" +:+ r = r.
Proof. reflexivity. Qed.

Lemma rstrip_app_space t r :
  Py.all Py.isspace r = true -> Py.rstrip (t +:+ r) = Py.rstrip t.
Proof.
  intros Hr. induction t as [|c t IH].
  - rewrite append_nil. now apply rstrip_all_space.
  - rewrite append_cons. cbn [Py.rstrip]. now rewrite IH.
Qed.

Lemma lstrip_app_space l t :
  Py.all Py.isspace l = true -> Py.lstrip (l +:+ t) = Py.lstrip t.
Proof.
  induction l as [|c l IH]; [reflexivity |].
  rewrite all_cons. intros [Hc Hl]. rewrite append_cons. cbn [Py.lstrip].
  now rewrite Hc, (IH Hl).
Qed.

Lemma strip_app_space_r t r :
  Py.all Py.isspace r = true -> Py.strip (t +:+ r) = Py.strip t.
Proof.
  intros Hr. unfold Py.strip. induction t as [|c t IH].
  - rewrite append_nil, (lstrip_all_space _ Hr). reflexivity.
  - rewrite append_cons. cbn [Py.lstrip]. destruct (Py.isspace c); [exact IH |].
    rewrite <- append_cons. apply (rstrip_app_space (String c t) r Hr).
Qed.

(** White space around a string does not change what [strip] returns. *)
Lemma strip_padded l t r :
  Py.all Py.isspace l = true -> Py.all Py.isspace r = true ->
  Py.strip (l +:+ t +:+ r) = Py.strip t.
Proof.
  intros Hl Hr. unfold Py.strip at 1. rewrite (lstrip_app_space _ _ Hl).
  apply (strip_app_space_r t r Hr).
Qed.

Lemma rstrip_nonspace s :
  Py.all nonspace s = true -> Py.rstrip s = s.
Proof.
  induction s as [|c s IH]; [reflexivity |].
  rewrite all_cons. unfold nonspace at 1. intros [Hc Hs]. cbn.
  rewrite (IH Hs). apply negb_true_iff in Hc. rewrite Hc.
  destruct s; reflexivity.
Qed.

Lemma strip_nonspace s : Py.all nonspace s = true -> Py.strip s = s.
Proof.
  intros H. unfold Py.strip.
  destruct s as [|c s]; [reflexivity |].
  pose proof H as H'. apply all_cons in H' as [Hc _].
  apply negb_true_iff in Hc. rewrite (lstrip_nonspace_head _ _ Hc).
  now apply rstrip_nonspace.
Qed.

Lemma lower_lstrip s : Py.lower (Py.lstrip s) = Py.lstrip (Py.lower s).
Proof.
  induction s as [|c s IH]; [reflexivity |].
  cbn. rewrite isspace_lower_char. destruct (Py.isspace c); [exact IH | reflexivity].
Qed.

Lemma lower_rstrip s : Py.lower (Py.rstrip s) = Py.rstrip (Py.lower s).
Proof.
  induction s as [|c s IH]; [reflexivity |].
  cbn. fold (Py.lower s). rewrite <- IH, isspace_lower_char.
  destruct (Py.rstrip s); [destruct (Py.isspace c) |]; reflexivity.
Qed.

Lemma lower_strip s : Py.lower (Py.strip s) = Py.strip (Py.lower s).
Proof. unfold Py.strip. now rewrite lower_rstrip, lower_lstrip. Qed.

(** ** [int(s, 16)] on hexadecimal digits *)

Lemma hex_number_range s :
  Py.all Py.is_hex_digit s = true ->
  0 <= hex_number s < 16 ^ Z.of_nat (String.length s).
Proof.
  induction s as [|c s IH]; [cbn; lia |].
  rewrite all_cons. intros [Hc Hs]. specialize (IH Hs).
  destruct (is_hex_digit_value c Hc) as [d Hd].
  pose proof (hex_digit_value_range c d Hd).
  cbn [hex_number String.length]. rewrite Hd.
  change (default 0 (Some d)) with d.
  rewrite Nat2Z.inj_succ, Z.pow_succ_r by lia.
  set (P := 16 ^ Z.of_nat (String.length s)) in *.
  assert (0 <= P) by lia.
  assert (0 <= d * P) by (apply Z.mul_nonneg_nonneg; lia).
  assert (d * P <= 15 * P) by (apply Z.mul_le_mono_nonneg_r; lia).
  lia.
Qed.

Lemma scan_digits_hex s acc n :
  Py.all Py.is_hex_digit s = true ->
  Py.scan_digits s false acc n
  = Some (acc * 16 ^ Z.of_nat (String.length s) + hex_number s,
          (n + String.length s)%nat, "").
Proof.
  revert acc n. induction s as [|c s IH]; intros acc n.
  - intros _. cbn [Py.scan_digits hex_number String.length].
    replace (acc * 16 ^ Z.of_nat 0 + 0) with acc by (cbn; lia).
    now rewrite Nat.add_0_r.
  - rewrite all_cons. intros [Hc Hs].
    destruct (is_hex_digit_value c Hc) as [d Hd].
    destruct (hex_digit_facts c Hc) as (_ & _ & Hu & _).
    cbn [Py.scan_digits hex_number String.length]. rewrite Hu, Hd.
    rewrite (IH _ _ Hs). change (default 0 (Some d)) with d.
    rewrite Nat2Z.inj_succ, Z.pow_succ_r by lia.
    set (P := 16 ^ Z.of_nat (String.length s)).
    replace ((16 * acc + d) * P + hex_number s)
      with (acc * (16 * P) + (d * P + hex_number s)) by ring.
    replace (S n + String.length s)%nat with (n + S (String.length s))%nat by lia.
    reflexivity.
Qed.

Lemma long_from_string16_hex s :
  s <> "" -> Py.all Py.is_hex_digit s = true ->
  Py.long_from_string16 s = Some (hex_number s).
Proof.
  intros Hne Hs. destruct s as [|c s]; [congruence |].
  pose proof Hs as Hs'. apply all_cons in Hs' as [Hc Ht].
  destruct (hex_digit_facts c Hc) as (_ & Hsp & Hu & Hplus & Hminus & _).
  unfold Py.long_from_string16. cbn [Py.skip_c_spaces]. rewrite Hsp.
  cbn [Py.read_sign]. rewrite Hplus, Hminus.
  assert (Hpre : Py.skip_prefix16 (String c s) = String c s).
  { destruct s as [|x s]; [reflexivity |].
    apply all_cons in Ht as [Hx _].
    destruct (hex_digit_facts x Hx) as (_ & _ & _ & _ & _ & Hx1 & Hx2 & _).
    cbn [Py.skip_prefix16]. rewrite Hx1, Hx2, andb_false_r. reflexivity. }
  rewrite Hpre, Hu, (scan_digits_hex _ 0 0%nat Hs).
  cbn [String.length Nat.add Py.skip_c_spaces]. f_equal. lia.
Qed.

Lemma int16_hex s :
  s <> "" -> Py.all Py.is_hex_digit s = true ->
  Py.int16 s = Some (hex_number s).
Proof.
  intros Hne Hs. unfold Py.int16.
  assert (Ha : Py.is_ascii s = true).
  { unfold Py.is_ascii. apply (all_impl Py.is_hex_digit); [| exact Hs].
    intros c Hc. apply (hex_digit_facts c Hc). }
  rewrite Ha. now apply long_from_string16_hex.
Qed.

(* ===================================================================== *)
(** * Properties of colors.py *)
(* ===================================================================== *)

Import colors.

Lemma hexish_facts c :
  hexish c = true -> nonspace c = true /\ hexish (Py.lower_char c) = true.
Proof.
  intros H. each_char c; vm_compute in H; try discriminate H;
    split; reflexivity.
Qed.

Lemma known_colors_spec n : n ∈ known_colors <-> n ∈ known_color_names.
Proof. unfold known_colors. apply elem_of_list_to_set. Qed.

Lemma in_known_colors n :
  bool_decide (n ∈ known_colors) = true -> n ∈ known_colors.
Proof. apply bool_decide_eq_true. Qed.

Lemma not_known_colors n :
  bool_decide (n ∈ known_colors) = false -> n ∉ known_colors.
Proof. apply bool_decide_eq_false. Qed.

Lemma known_color_names_stripped :
  Forall (fun n => Py.strip n = n) known_color_names.
Proof. repeat constructor. Qed.

Lemma known_color_names_not_hexish :
  Forall (fun n => Py.all hexish n = false) known_color_names.
Proof. repeat constructor. Qed.

(** No colour name is written with hexadecimal digits and ['#'] only. *)
Lemma hexish_not_known s :
  Py.all hexish s = true -> Py.lower s ∉ known_colors.
Proof.
  intros H Hin. apply known_colors_spec in Hin.
  assert (Hl : Py.all hexish (Py.lower s) = true).
  { apply all_map; [| exact H]. intros c Hc. apply (hexish_facts c Hc). }
  pose proof known_color_names_not_hexish as HF.
  rewrite Forall_forall in HF. rewrite (HF _ Hin) in Hl. discriminate.
Qed.

Lemma hexish_strip s : Py.all hexish s = true -> Py.strip s = s.
Proof.
  intros H. apply strip_nonspace. apply (all_impl hexish); [| exact H].
  intros c Hc. apply (hexish_facts c Hc).
Qed.

Lemma hex_hexish s : Py.all Py.is_hex_digit s = true -> Py.all hexish s = true.
Proof.
  apply all_impl. intros c Hc. unfold hexish. now rewrite Hc.
Qed.

Lemma hex_startswith s :
  Py.all Py.is_hex_digit s = true -> Py.startswith s "#" = false.
Proof.
  destruct s as [|c s]; [reflexivity |].
  rewrite all_cons. intros [Hc _]. cbn.
  apply bool_decide_eq_false_2. apply (hex_digit_facts c Hc).
Qed.

Section ResolverFacts.

Variable Colour_named : string -> Colour.

Lemma str_to_color_named s w :
  Py.lower (Py.strip s) ∈ known_colors ->
  Colour_hasattr (Py.lower (Py.strip s)) = true ->
  str_to_color Colour_named s w
  = (Ok (Colour_named (Py.lower (Py.strip s))), w).
Proof.
  intros H Ha. unfold str_to_color, Colour_getattr, bind.
  rewrite bool_decide_eq_true_2 by exact H. now rewrite Ha.
Qed.

Lemma str_to_color_no_attribute s w :
  Py.lower (Py.strip s) ∈ known_colors ->
  Colour_hasattr (Py.lower (Py.strip s)) = false ->
  str_to_color Colour_named s w
  = (Raise (Exn AttributeError
              ("type object 'Colour' has no attribute '"
                 +:+ Py.lower (Py.strip s) +:+ "'")), w).
Proof.
  intros H Ha. unfold str_to_color, Colour_getattr, bind.
  rewrite bool_decide_eq_true_2 by exact H. now rewrite Ha.
Qed.

(** The hex branch: the candidate is parsed when it has six characters
    and [int] accepts it; the warning and the default otherwise. *)
Lemma str_to_color_not_named s w :
  Py.lower (Py.strip s) ∉ known_colors ->
  str_to_color Colour_named s w
  = match (if (String.length (hex_candidate s) =? 6)%nat
           then Py.int16 (hex_candidate s) else None) with
    | Some v => (Ok (mkColour v), w)
    | None =>
        (warning (invalid_color_warning (hex_candidate s)) ;;;
         ret (Colour_named "blurple")) w
    end.
Proof.
  intros H. unfold str_to_color. rewrite bool_decide_eq_false_2 by exact H.
  fold (hex_candidate s). unfold bind at 1. unfold try_except, int_.
  destruct (String.length (hex_candidate s) =? 6)%nat; [| reflexivity].
  destruct (Py.int16 (hex_candidate s)); reflexivity.
Qed.

(** A string of hexadecimal digits, with or without ['#'] before it. *)
Lemma str_to_color_hex (hash : bool) s w :
  Py.all Py.is_hex_digit s = true ->
  let digits := if (String.length s =? 3)%nat then Py.double_chars s else s in
  String.length digits = 6%nat ->
  str_to_color Colour_named (if hash then String "#" s else s) w
  = (Ok (mkColour (hex_number digits)), w).
Proof.
  intros Hs digits Hlen.
  set (input := if hash then String "#" s else s).
  assert (Hin : Py.all hexish input = true).
  { subst input. destruct hash; [apply all_cons; split; [reflexivity |] |];
      now apply hex_hexish. }
  assert (Hc : hex_candidate input = digits).
  { unfold hex_candidate. rewrite (hexish_strip _ Hin). subst input.
    destruct hash.
    - cbn [Py.startswith Py.tail]. rewrite bool_decide_eq_true_2 by reflexivity.
      reflexivity.
    - now rewrite (hex_startswith _ Hs). }
  rewrite str_to_color_not_named.
  - rewrite Hc, Hlen. cbn [Nat.eqb].
    rewrite int16_hex; [reflexivity | |].
    + intros E. rewrite E in Hlen. discriminate Hlen.
    + subst digits. destruct (String.length s =? 3)%nat; [| exact Hs].
      now apply all_double_chars.
  - rewrite (hexish_strip _ Hin). now apply hexish_not_known.
Qed.

(** What [str_to_color] resolves.  It returns the named colour for every
    known colour name that [discord.Colour] defines, in any letter case
    and with any white space around it; for six hexadecimal digits, with
    or without a leading ['#'], the colour whose value is the number they
    denote, which is below 2^24; for three hexadecimal digits, the colour
    whose value is the number denoted by the six digits obtained by
    doubling each of them.  No record is handed to the logger in these
    cases. *)
Theorem str_to_color_resolves (w : World) :
  (forall name l t r,
     name ∈ known_colors ->
     Colour_hasattr name = true ->
     Py.lower t = name ->
     Py.all Py.isspace l = true -> Py.all Py.isspace r = true ->
     str_to_color Colour_named (l +:+ t +:+ r) w = (Ok (Colour_named name), w))
  /\ (forall s,
     String.length s = 6%nat -> Py.all Py.is_hex_digit s = true ->
     str_to_color Colour_named s w = (Ok (mkColour (hex_number s)), w)
     /\ str_to_color Colour_named (String "#" s) w
        = (Ok (mkColour (hex_number s)), w)
     /\ 0 <= hex_number s < 2 ^ 24)
  /\ (forall s,
     String.length s = 3%nat -> Py.all Py.is_hex_digit s = true ->
     str_to_color Colour_named s w
     = (Ok (mkColour (hex_number (Py.double_chars s))), w)
     /\ str_to_color Colour_named (String "#" s) w
        = (Ok (mkColour (hex_number (Py.double_chars s))), w)).
Proof.
  split; [| split].
  - intros name l t r Hin Ha Hlow Hl Hr.
    assert (E : Py.lower (Py.strip (l +:+ t +:+ r)) = name).
    { rewrite (strip_padded _ _ _ Hl Hr), lower_strip, Hlow.
      apply known_colors_spec in Hin.
      pose proof known_color_names_stripped as HF.
      rewrite Forall_forall in HF. now apply HF. }
    rewrite str_to_color_named; rewrite E; [reflexivity | exact Hin | exact Ha].
  - intros s Hlen Hs.
    pose proof (str_to_color_hex false s w Hs) as H0.
    pose proof (str_to_color_hex true s w Hs) as H1.
    cbv zeta in H0, H1. rewrite Hlen in H0, H1. cbn [Nat.eqb] in H0, H1.
    split; [exact (H0 Hlen) |]. split; [exact (H1 Hlen) |].
    pose proof (hex_number_range s Hs) as Hr. rewrite Hlen in Hr. exact Hr.
  - intros s Hlen Hs.
    pose proof (str_to_color_hex false s w Hs) as H0.
    pose proof (str_to_color_hex true s w Hs) as H1.
    cbv zeta in H0, H1. rewrite Hlen in H0, H1. cbn [Nat.eqb] in H0, H1.
    assert (Hd : String.length (Py.double_chars s) = 6%nat)
      by (rewrite length_double_chars, Hlen; reflexivity).
    split; [exact (H0 Hd) | exact (H1 Hd)].
Qed.

(** C8 fails in the code.  ['dark_pink'] is one of the known colour
    names, and [discord.Colour] has no attribute of this name: on it, in
    any letter case and with any white space around it, [str_to_color]
    returns no colour.  The AttributeError of the [getattr], which stands
    before the [try], reaches the caller; no record is handed to the
    logger.  Every other known colour name is an attribute of
    [discord.Colour]. *)
Theorem str_to_color_dark_pink_raises (w : World) :
  "dark_pink" ∈ known_colors
  /\ Colour_hasattr "dark_pink" = false
  /\ (forall l t r,
        Py.lower t = "dark_pink" ->
        Py.all Py.isspace l = true -> Py.all Py.isspace r = true ->
        str_to_color Colour_named (l +:+ t +:+ r) w
        = (Raise (Exn AttributeError
                    "type object 'Colour' has no attribute 'dark_pink'"), w))
  /\ str_to_color Colour_named " Dark_Pink " w
     = (Raise (Exn AttributeError
                 "type object 'Colour' has no attribute 'dark_pink'"), w)
  /\ Forall (fun name => name <> "dark_pink" -> Colour_hasattr name = true)
       known_color_names.
Proof.
  assert (Hin : "dark_pink" ∈ known_colors)
    by (apply in_known_colors; reflexivity).
  assert (Hall : forall l t r,
             Py.lower t = "dark_pink" ->
             Py.all Py.isspace l = true -> Py.all Py.isspace r = true ->
             str_to_color Colour_named (l +:+ t +:+ r) w
             = (Raise (Exn AttributeError
                         "type object 'Colour' has no attribute 'dark_pink'"), w)).
  { intros l t r Hlow Hl Hr.
    assert (E : Py.lower (Py.strip (l +:+ t +:+ r)) = "dark_pink").
    { rewrite (strip_padded _ _ _ Hl Hr), lower_strip, Hlow. reflexivity. }
    rewrite str_to_color_no_attribute; rewrite E;
      [reflexivity | exact Hin | reflexivity]. }
  split; [exact Hin |]. split; [reflexivity |]. split; [exact Hall |].
  split; [exact (Hall " " "Dark_Pink" " " eq_refl eq_refl eq_refl) |].
  unfold known_color_names.
  repeat (constructor; [intros H; try reflexivity; now destruct H |]).
  constructor.
Qed.

(** C5, as the code has it.  With the log sink set up, for every string
    that is not a known colour name (stripped and in lower case) and whose
    hex candidate does not have six characters or is refused by
    [int(., 16)], [str_to_color] does not raise: it returns the blurple
    colour and hands the logger exactly one WARNING record, which names
    the hex candidate. *)
Theorem str_to_color_falls_back (s : string) (w : World) (lg : logger_ref) :
  logger w = Some lg ->
  Py.lower (Py.strip s) ∉ known_colors ->
  String.length (hex_candidate s) <> 6%nat \/ Py.int16 (hex_candidate s) = None ->
  str_to_color Colour_named s w
  = (Ok (Colour_named "blurple"),
     add_record
       (mkRecord lg WARNING (invalid_color_warning (hex_candidate s)) false) w).
Proof.
  intros Hlg Hn Hc. rewrite (str_to_color_not_named _ _ Hn).
  assert (E : (if (String.length (hex_candidate s) =? 6)%nat
               then Py.int16 (hex_candidate s) else None) = None).
  { destruct Hc as [Hc|Hc].
    - apply Nat.eqb_neq in Hc. now rewrite Hc.
    - rewrite Hc. now destruct (_ =? _)%nat. }
  rewrite E. unfold bind. now rewrite (warning_Some _ _ _ Hlg).
Qed.

(** C10.  ["+abcde"] and ["00_0ff"] have six characters, not all of them
    hexadecimal digits, and [str_to_color] returns for them the colours
    of value 0xabcde and 0xff, without a warning: the hex branch accepts
    what [int(., 16)] accepts. *)
Theorem str_to_color_accepts_what_int_accepts (w : World) :
  (String.length "+abcde" = 6%nat
   /\ Py.all Py.is_hex_digit "+abcde" = false
   /\ Py.int16 "+abcde" = Some 703710
   /\ str_to_color Colour_named "+abcde" w = (Ok (mkColour 703710), w))
  /\ (String.length "00_0ff" = 6%nat
      /\ Py.all Py.is_hex_digit "00_0ff" = false
      /\ Py.int16 "00_0ff" = Some 255
      /\ str_to_color Colour_named "00_0ff" w = (Ok (mkColour 255), w)).
Proof.
  split; (split; [reflexivity |]; split; [reflexivity |];
          split; [reflexivity |]).
  - rewrite str_to_color_not_named; [reflexivity |].
    apply not_known_colors. vm_compute. reflexivity.
  - rewrite str_to_color_not_named; [reflexivity |].
    apply not_known_colors. vm_compute. reflexivity.
Qed.

End ResolverFacts.

Lemma str_to_color_resolves_witness :
  ("teal" ∈ known_colors /\ Colour_hasattr "teal" = true
   /\ Py.lower "TEAL" = "teal"
   /\ Py.all Py.isspace "  " = true /\ Py.all Py.isspace " " = true
   /\ str_to_color sample_palette "  TEAL " ready = (Ok (mkColour 1752220), ready))
  /\ (String.length "ABC" = 3%nat /\ Py.all Py.is_hex_digit "ABC" = true
      /\ str_to_color sample_palette "#ABC" ready = (Ok (mkColour 11189196), ready)).
Proof.
  destruct (str_to_color_resolves sample_palette ready) as (Hname & _ & Hthree).
  split.
  - assert (Hin : "teal" ∈ known_colors) by (apply in_known_colors; reflexivity).
    split; [exact Hin |]. split; [reflexivity |]. split; [reflexivity |].
    split; [reflexivity |]. split; [reflexivity |].
    exact (Hname "teal" "  " "TEAL" " " Hin eq_refl eq_refl eq_refl eq_refl).
  - split; [reflexivity |]. split; [reflexivity |].
    destruct (Hthree "ABC" eq_refl eq_refl) as [_ H]. exact H.
Defined.

Lemma str_to_color_falls_back_witness :
  logger ready = Some (Named "DungeonBot")
  /\ (Py.lower (Py.strip "zz") ∉ known_colors)
  /\ String.length (hex_candidate "zz") <> 6%nat
  /\ str_to_color sample_palette "zz" ready
     = (Ok (mkColour 5793266),
        add_record
          (mkRecord (Named "DungeonBot") WARNING
             "Invalid color string 'zz', using default color (blurple)." false)
          ready).
Proof.
  assert (Hn : Py.lower (Py.strip "zz") ∉ known_colors)
    by (apply not_known_colors; reflexivity).
  assert (Hl : String.length (hex_candidate "zz") <> 6%nat) by discriminate.
  split; [reflexivity |]. split; [exact Hn |]. split; [exact Hl |].
  exact (str_to_color_falls_back sample_palette "zz" ready (Named "DungeonBot")
           eq_refl Hn (or_introl Hl)).
Defined.

(** C5 fails as stated.  ["+abcde"] is neither a known colour name nor a
    colour code in hexadecimal notation, and [str_to_color] returns for it
    the colour of value 0xabcde, not the default, and hands the logger no
    record.  ["#xyz"] is neither, and the one warning names ["xxyyzz"],
    not the input. *)
Lemma str_to_color_default_claim_fails :
  ((Py.lower (Py.strip "+abcde") ∉ known_colors)
   /\ is_hex_code "+abcde" = false
   /\ str_to_color sample_palette "+abcde" ready = (Ok (mkColour 703710), ready)
   /\ mkColour 703710 <> sample_palette "blurple")
  /\ ((Py.lower (Py.strip "#xyz") ∉ known_colors)
      /\ is_hex_code "#xyz" = false
      /\ records (snd (str_to_color sample_palette "#xyz" ready))
         = [mkRecord (Named "DungeonBot") WARNING
              (invalid_color_warning "xxyyzz") false]
      /\ invalid_color_warning "xxyyzz" <> invalid_color_warning "#xyz").
Proof.
  split.
  - split; [apply not_known_colors; reflexivity |].
    split; [reflexivity |]. split; [reflexivity |]. discriminate.
  - split; [apply not_known_colors; reflexivity |].
    split; [reflexivity |]. split; [reflexivity |]. discriminate.
Qed.

(* ===================================================================== *)
(** * Further properties of log.py: [setup_logger] in any state *)
(* ===================================================================== *)

Section SetupAnyState.

Variable install_root : string.

Lemma addHandler_rest lg h w :
  logger (addHandler lg h w) = logger w
  /\ records (addHandler lg h w) = records w
  /\ calls (addHandler lg h w) = calls w.
Proof. unfold addHandler. apply assign_rest. Qed.



Lemma setup_logger_rest name fl cl w :
  logger (setup_logger install_root name fl cl w) = Some (fst (getLogger name w))
  /\ records (setup_logger install_root name fl cl w) = records w
  /\ calls (setup_logger install_root name fl cl w) = calls w.
Proof.
  rewrite setup_logger_unfold. cbv zeta.
  destruct (configured_rest name fl cl w) as (Hl & Hr & Hc).
  destruct (negb _); [| auto].
  destruct (addHandler_rest (fst (getLogger name w))
              (new_console_handler (level_named cl))
              (addHandler (fst (getLogger name w))
                 (new_file_handler install_root (level_named fl))
                 (configured name fl cl w))) as (-> & -> & ->).
  destruct (addHandler_rest (fst (getLogger name w))
              (new_file_handler install_root (level_named fl))
              (configured name fl cl w)) as (-> & -> & ->).
  auto.
Qed.

(** Once [setup_logger] has returned, from whatever state and with
    whatever arguments, the four logging functions do not raise: each
    hands the logger that [getLogger] gave for the name exactly one
    record, at its own level and with the message it was given. *)
Theorem setup_logger_enables_logging
  (name fl cl msg : string) (stacktrace : bool) (w : World) :
  let w' := setup_logger install_root name fl cl w in
  let lg := fst (getLogger name w) in
  debug msg w' = (Ok tt, add_record (mkRecord lg DEBUG msg false) w')
  /\ info msg w' = (Ok tt, add_record (mkRecord lg INFO msg false) w')
  /\ warning msg w' = (Ok tt, add_record (mkRecord lg WARNING msg false) w')
  /\ error msg stacktrace w'
     = (Ok tt, add_record (mkRecord lg ERROR msg stacktrace) w').
Proof.
  intros w' lg.
  assert (Hlg : logger w' = Some lg) by apply setup_logger_rest.
  split; [| split; [| split]].
  - unfold debug. rewrite (require_logger_Some _ _ _ _ Hlg).
    now apply Logger_log_Some.
  - now apply info_Some.
  - now apply warning_Some.
  - now apply error_Some.
Qed.



End SetupAnyState.


(** The test of [setup_logger] looks at the ancestors of a dotted name.
    Under a logger ['a'] that has a handler, [setup_logger] for ['a.b']
    finds the handler of ['a'] and attaches none to ['a.b'].  Under a
    logger ['a'] that has no handler and does not propagate, the handler
    of the root logger is not seen, and ['a.b'] gets the file handler and
    the console handler.  The parent of ['a.b'] is the root logger as long
    as ['a'] does not exist, and ['a'] once it has been created. *)
Example setup_logger_looks_at_ancestors :
  let h := new_console_handler WARNING in
  let w_a := addHandler (Named "a") h (snd (getLogger "a" initial)) in
  let w_r :=
    assign (Named "a") (mkLogger NOTSET [] false)
      (addHandler Root h (snd (getLogger "a" initial))) in
  let w_c := snd (getLogger "a" (snd (getLogger "a.b" initial))) in
  (parent (Named "a.b") (snd (getLogger "a.b" w_a)) = Some (Named "a")
   /\ hasHandlers (Named "a.b") (configured "a.b" "INFO" "INFO" w_a) = true
   /\ lg_handlers (deref (Named "a.b")
                     (setup_logger "/srv/bot" "a.b" "INFO" "INFO" w_a)) = [])
  /\ (hasHandlers (Named "a.b") (configured "a.b" "INFO" "INFO" w_r) = false
      /\ lg_handlers (deref (Named "a.b")
                        (setup_logger "/srv/bot" "a.b" "INFO" "INFO" w_r))
         = [new_file_handler "/srv/bot" INFO; new_console_handler INFO])
  /\ (parent (Named "a.b") (snd (getLogger "a.b" initial)) = Some Root
      /\ parent (Named "a.b") w_c = Some (Named "a")
      /\ parent (Named "a") w_c = Some Root).
Proof. vm_compute. repeat split. Qed.


(* ===================================================================== *)
(** * Further properties of log.py: the loop of [hasHandlers] ends *)
(* ===================================================================== *)












Section WalkEnds.

Variable install_root : string.


End WalkEnds.


(* ===================================================================== *)
(** * Further properties of log.py: level names *)
(* ===================================================================== *)

Lemma upper_char_idempotent c : Py.upper_char (Py.upper_char c) = Py.upper_char c.
Proof. each_char c; reflexivity. Qed.

Lemma upper_idempotent s : Py.upper (Py.upper s) = Py.upper s.
Proof.
  induction s as [|c s IH]; [reflexivity |].
  cbn. fold (Py.upper s) (Py.upper (Py.upper s)).
  now rewrite upper_char_idempotent, IH.
Qed.

(** The level [setup_logger] reads from a level name is always one of the
    six levels of the [logging] library; it does not depend on the letter
    case of the ASCII letters of the name; and a name that is not a key of
    the library's mapping, once in upper case, gives INFO. *)
Theorem level_named_range (level : string) :
  level_named level ∈ [NOTSET; DEBUG; INFO; WARNING; ERROR; CRITICAL]
  /\ level_named (Py.upper level) = level_named level
  /\ (getLevelNamesMapping !! Py.upper level = None -> level_named level = INFO).
Proof.
  split; [| split].
  - unfold level_named.
    destruct (getLevelNamesMapping !! Py.upper level) as [v|] eqn:Hl;
      cbn [default from_option id].
    + unfold getLevelNamesMapping in Hl.
      apply elem_of_list_to_map_2 in Hl.
      repeat (apply elem_of_cons in Hl as [Hl|Hl];
              [injection Hl as _ ->; set_solver |]).
      now apply elem_of_nil in Hl.
    + set_solver.
  - unfold level_named. now rewrite upper_idempotent.
  - intros H. unfold level_named. now rewrite H.
Qed.

Lemma level_named_range_witness :
  getLevelNamesMapping !! Py.upper "verbose" = None
  /\ level_named "verbose" = INFO
  /\ level_named "Warn" = WARNING.
Proof.
  split; [reflexivity |]. split.
  - now apply (level_named_range "verbose").
  - reflexivity.
Defined.

(* ===================================================================== *)
(** * Further properties of log.py: what the dispatcher leaves alone *)
(* ===================================================================== *)

Lemma continues_refl w : continues w w.
Proof. unfold continues. repeat split; reflexivity. Qed.

Lemma continues_trans w1 w2 w3 :
  continues w1 w2 -> continues w2 w3 -> continues w1 w3.
Proof.
  unfold continues.
  intros (Hr & Hl & Hg & Hp & Hph & Hrec & Hc)
         (Hr' & Hl' & Hg' & Hp' & Hph' & Hrec' & Hc').
  repeat split; try congruence; etrans; eassumption.
Qed.

Lemma continues_add_record r w : continues w (add_record r w).
Proof.
  unfold continues, add_record. cbn. repeat split; try reflexivity.
  now apply prefix_app_r.
Qed.

Lemma continues_add_call c w : continues w (add_call c w).
Proof.
  unfold continues, add_call. cbn. repeat split; try reflexivity.
  now apply prefix_app_r.
Qed.

Create HintDb steady.

Lemma steady_ret {A} (a : A) : steady (ret a).
Proof. intros w. apply continues_refl. Qed.

Lemma steady_raise {A} e : steady (@raise A e).
Proof. intros w. apply continues_refl. Qed.

Lemma steady_bind {A B} (m : M A) (k : A -> M B) :
  steady m -> (forall a, steady (k a)) -> steady (bind m k).
Proof.
  intros Hm Hk w. unfold bind. specialize (Hm w).
  destruct (m w) as [[a|e] w1]; cbn [snd] in *.
  - eapply continues_trans; [exact Hm | apply Hk].
  - exact Hm.
Qed.

Lemma steady_try_except {A} (m : M A) (h : exn -> M A) :
  steady m -> (forall e, steady (h e)) -> steady (try_except m h).
Proof.
  intros Hm Hh w. unfold try_except. specialize (Hm w).
  destruct (m w) as [[a|e] w1]; cbn [snd] in *.
  - exact Hm.
  - eapply continues_trans; [exact Hm | apply Hh].
Qed.

Lemma steady_Logger_log method level msg stack_info :
  steady (Logger_log method level msg stack_info).
Proof.
  intros w. unfold Logger_log. destruct (logger w); cbn [snd].
  - apply continues_add_record.
  - apply continues_refl.
Qed.

Lemma steady_require_logger {A} (func : string -> M A) msg :
  (forall m, steady (func m)) -> steady (require_logger func msg).
Proof.
  intros Hf w. unfold require_logger. destruct (logger w).
  - apply Hf.
  - apply continues_refl.
Qed.

Lemma steady_info msg : steady (info msg).
Proof.
  unfold info. apply steady_require_logger. intros m.
  apply steady_Logger_log.
Qed.

Lemma steady_error msg stacktrace : steady (error msg stacktrace).
Proof.
  unfold error. apply steady_require_logger. intros m.
  apply steady_Logger_log.
Qed.

#[local] Hint Resolve steady_ret steady_raise steady_info steady_error
  steady_Logger_log : steady.
#[local] Hint Extern 2 (steady (bind _ _)) =>
  apply steady_bind; [| intros ?] : steady.
#[local] Hint Extern 2 (steady (try_except _ _)) =>
  apply steady_try_except; [| intros ?] : steady.
#[local] Hint Extern 3 (steady (match ?x with _ => _ end)) =>
  destruct x : steady.

Section DispatcherFrame.

Variable remote : list Call -> Call -> outcome (option handle).
Variable Colour_named : string -> Colour.

Lemma steady_await c : steady (await remote c).
Proof. intros w. unfold await. cbn [snd]. apply continues_add_call. Qed.

#[local] Hint Resolve steady_await : steady.

Lemma steady_safe_followup i content embed view file ephemeral :
  steady (safe_followup remote i content embed view file ephemeral).
Proof. unfold safe_followup. auto 10 with steady. Qed.

#[local] Hint Resolve steady_safe_followup : steady.

Lemma steady_safe_respond i content embed view file ephemeral :
  steady (safe_respond remote i content embed view file ephemeral).
Proof. unfold safe_respond. auto 10 with steady. Qed.

Lemma steady_safe_send_message channel content embed view file :
  steady (safe_send_message remote channel content embed view file).
Proof. unfold safe_send_message. auto 10 with steady. Qed.

#[local] Hint Resolve steady_safe_respond steady_safe_send_message : steady.

Lemma steady_client ctx msg title color delete_after :
  steady (client remote ctx msg title color delete_after).
Proof. unfold client. destruct ctx; auto with steady. Qed.

#[local] Hint Resolve steady_client : steady.

(** Whatever the network answers and whether or not the log sink is set
    up, and whether they return or raise, the dispatcher's functions and
    [success] and [failure] leave every logger, its level and handlers and
    the module's [logger] as they were, and only add to the records and to
    the calls: what was logged or sent before is still there, first and in
    the same order. *)
Theorem dispatcher_only_appends :
  (forall channel content embed view file,
     steady (safe_send_message remote channel content embed view file))
  /\ (forall i content embed view file ephemeral,
        steady (safe_respond remote i content embed view file ephemeral))
  /\ (forall i content embed view file ephemeral,
        steady (safe_followup remote i content embed view file ephemeral))
  /\ (forall ctx msg delete_after,
        steady (success remote Colour_named ctx msg delete_after))
  /\ (forall ctx msg delete_after stacktrace,
        steady (failure remote Colour_named ctx msg delete_after stacktrace)).
Proof.
  split; [| split; [| split; [| split]]]; intros.
  - apply steady_safe_send_message.
  - apply steady_safe_respond.
  - apply steady_safe_followup.
  - unfold success. auto with steady.
  - unfold failure. auto with steady.
Qed.

End DispatcherFrame.

(* ===================================================================== *)
(** * Further properties of log.py: values and the missing log sink *)
(* ===================================================================== *)

Section DispatcherValues.

Variable remote : list Call -> Call -> outcome (option handle).
Variable Colour_named : string -> Colour.

(** With the log sink set up, [safe_followup] does not raise.  It makes
    its one request; when the request returns, its value is the result and
    nothing is logged; when the request raises, whatever the exception
    (InteractionResponded is no special case here), the result is [None]
    and one ERROR record carries the exception's text. *)
Theorem safe_followup_suppresses
  i content embed view file ephemeral (w : World) (lg : logger_ref) :
  logger w = Some lg ->
  let c := followup_call i content embed view file ephemeral in
  safe_followup remote i content embed view file ephemeral w
  = match remote (calls w) c with
    | Ok v => (Ok v, add_call c w)
    | Raise e =>
        (Ok None,
         add_record
           (mkRecord lg ERROR ("Error during the followup: " +:+ exn_str e) true)
           (add_call c w))
    end.
Proof.
  intros Hlg c. destruct (remote (calls w) c) as [v|e] eqn:Hr.
  - now apply safe_followup_Ok.
  - now apply safe_followup_Raise.
Qed.

(** With the log sink set up, [safe_respond] does not raise, and its
    result is the value of the initial response when that request
    returned, and [None] in every other case. *)
Theorem safe_respond_value
  i content embed view file ephemeral (w : World) (lg : logger_ref) :
  logger w = Some lg ->
  exists w',
    safe_respond remote i content embed view file ephemeral w
    = (Ok match remote (calls w)
                  (respond_call i content embed view file ephemeral) with
          | Ok r => r
          | Raise _ => None
          end, w').
Proof.
  intros Hlg.
  destruct (safe_respond_effect remote i content embed view file ephemeral w lg Hlg)
    as (v & w' & Hs & _ & H).
  exists w'. rewrite Hs.
  destruct (remote (calls w) _) as [r|e]; destruct H as [-> _]; reflexivity.
Qed.

(** Before [setup_logger] has run, the dispatcher still makes its
    requests.  [safe_send_message] then raises the guard's RuntimeError
    whether the send returned or raised.  [safe_followup] returns the
    value of its request when it succeeds, and [safe_respond] the value of
    its first request when it succeeds; when the first request of
    [safe_respond] raises InteractionResponded, the followup request is
    made, and [safe_respond] returns [None] if it succeeds.  Whenever the
    request at hand raises otherwise, the RuntimeError of the guard
    reaches the caller in place of the exception of the request. *)
Theorem dispatcher_before_setup
  channel i content embed view file ephemeral (w : World) :
  logger w = None ->
  let c0 := safe_send channel content embed view file in
  let c1 := respond_call i content embed view file ephemeral in
  let c2 := followup_call i content embed view file ephemeral in
  safe_send_message remote channel content embed view file w
  = (Raise not_set_up, add_call c0 w)
  /\ safe_followup remote i content embed view file ephemeral w
     = (match remote (calls w) c2 with
        | Ok v => Ok v
        | Raise _ => Raise not_set_up
        end, add_call c2 w)
  /\ safe_respond remote i content embed view file ephemeral w
     = match remote (calls w) c1 with
       | Ok v => (Ok v, add_call c1 w)
       | Raise e =>
           if decide (exn_cls e = InteractionResponded) then
             (match remote (calls w ++ [c1]) c2 with
              | Ok _ => Ok None
              | Raise _ => Raise not_set_up
              end, add_call c2 (add_call c1 w))
           else (Raise not_set_up, add_call c1 w)
       end.
Proof.
  intros Hlg c0 c1 c2.
  assert (He : forall msg st w1, logger w1 = None ->
                                 error msg st w1 = (Raise not_set_up, w1)).
  { intros msg st w1 H1. unfold error. now apply require_logger_None. }
  assert (Hf : forall w1, logger w1 = None ->
             safe_followup remote i content embed view file ephemeral w1
             = (match remote (calls w1) c2 with
                | Ok v => Ok v
                | Raise _ => Raise not_set_up
                end, add_call c2 w1)).
  { intros w1 H1. unfold safe_followup, try_except, await, bind.
    fold (followup_call i content embed view file ephemeral). fold c2.
    destruct (remote (calls w1) c2) as [v|e]; [reflexivity |].
    now rewrite He. }
  split; [now apply safe_send_message_before_setup |].
  split; [now apply Hf |].
  destruct (remote (calls w) c1) as [v|e] eqn:Hr.
  - now apply safe_respond_Ok.
  - destruct (decide (exn_cls e = InteractionResponded)) as [Hc|Hc].
    + rewrite (safe_respond_responded remote _ _ _ _ _ _ _ _ Hr Hc).
      unfold bind. fold c1. rewrite (Hf (add_call c1 w) Hlg).
      change (calls (add_call c1 w)) with (calls w ++ [c1]).
      destruct (remote (calls w ++ [c1]) c2); reflexivity.
    + unfold safe_respond, try_except, await, bind.
      fold (respond_call i content embed view file ephemeral). fold c1.
      rewrite Hr.
      destruct (exn_cls e); try congruence; now rewrite He.
Qed.

(** Before [setup_logger] has run, [success] and [failure] raise the
    guard's RuntimeError at their first step, the log entry: no
    notification is sent, to a command context or to an interaction. *)
Theorem notification_before_setup
  (ctx : Target) (msg : string) (delete_after : Z) (stacktrace : bool)
  (w : World) :
  logger w = None ->
  success remote Colour_named ctx msg delete_after w = (Raise not_set_up, w)
  /\ failure remote Colour_named ctx msg delete_after stacktrace w
     = (Raise not_set_up, w).
Proof.
  intros Hlg. unfold success, failure, bind, info, error.
  now rewrite !(require_logger_None _ _ _ Hlg).
Qed.

End DispatcherValues.

Lemma safe_followup_suppresses_witness :
  logger ready = Some (Named "DungeonBot")
  /\ safe_followup (refuses Forbidden) sample_interaction (Some "done")
       None None None false ready
     = (Ok None,
        add_record
          (mkRecord (Named "DungeonBot") ERROR
             "Error during the followup: 403 Forbidden (error code: 50013): Missing Permissions"
             true)
          (add_call (followup_call sample_interaction (Some "done") None None None false)
             ready)).
Proof.
  split; [reflexivity |].
  exact (safe_followup_suppresses (refuses Forbidden) sample_interaction
           (Some "done") None None None false ready (Named "DungeonBot") eq_refl).
Defined.

Lemma safe_respond_value_witness :
  logger ready = Some (Named "DungeonBot")
  /\ exists w',
      safe_respond already_responded sample_interaction (Some "done")
        None None None false ready = (Ok None, w').
Proof.
  split; [reflexivity |].
  exact (safe_respond_value already_responded sample_interaction (Some "done")
           None None None false ready (Named "DungeonBot") eq_refl).
Defined.

Lemma dispatcher_before_setup_witness :
  logger initial = None
  /\ safe_send_message answers sample_channel (Some "hello") None None None initial
     = (Raise not_set_up,
        add_call (safe_send sample_channel (Some "hello") None None None) initial).
Proof.
  split; [reflexivity |].
  apply (dispatcher_before_setup answers sample_channel sample_interaction
           (Some "hello") None None None false initial eq_refl).
Defined.

Lemma notification_before_setup_witness :
  logger initial = None
  /\ success answers sample_palette (TContext sample_context) "Saved" 5 initial
     = (Raise not_set_up, initial).
Proof.
  split; [reflexivity |].
  apply (notification_before_setup answers sample_palette (TContext sample_context)
           "Saved" 5 false initial eq_refl).
Defined.

(* ===================================================================== *)
(** * Further properties of colors.py *)
(* ===================================================================== *)

Lemma length_map f s : String.length (Py.map f s) = String.length s.
Proof. induction s as [|c s IH]; cbn; [reflexivity | now rewrite IH]. Qed.

Lemma double_chars_map f s :
  Py.double_chars (Py.map f s) = Py.map f (Py.double_chars s).
Proof. induction s as [|c s IH]; cbn; [reflexivity | now rewrite IH]. Qed.

Lemma hex_digit_value_lower c :
  Py.is_hex_digit c = true ->
  Py.hex_digit_value (Py.lower_char c) = Py.hex_digit_value c.
Proof. intros H. each_char c; vm_compute in H; try discriminate H; reflexivity. Qed.

(** Upper-case and lower-case hexadecimal digits denote the same number. *)
Lemma hex_number_lower s :
  Py.all Py.is_hex_digit s = true -> hex_number (Py.lower s) = hex_number s.
Proof.
  induction s as [|c s IH]; [reflexivity |].
  rewrite all_cons. intros [Hc Hs]. unfold Py.lower in *.
  cbn [Py.map hex_number]. rewrite length_map, (hex_digit_value_lower c Hc).
  now rewrite (IH Hs).
Qed.

Section ResolverMore.

Variable Colour_named : string -> Colour.

(** White space around the input changes nothing: [str_to_color] gives
    the same outcome, the same records included, for a string and for the
    string with white space before and after it. *)
Theorem str_to_color_ignores_padding (l s r : string) (w : World) :
  Py.all Py.isspace l = true -> Py.all Py.isspace r = true ->
  str_to_color Colour_named (l +:+ s +:+ r) w = str_to_color Colour_named s w.
Proof.
  intros Hl Hr. unfold str_to_color.
  now rewrite (strip_padded l s r Hl Hr).
Qed.

(** The letter case of hexadecimal digits does not matter: a code of
    three or six hexadecimal digits, with or without ['#'], and the same
    code in lower case give the same colour. *)
Theorem str_to_color_hex_case (hash : bool) (s : string) (w : World) :
  Py.all Py.is_hex_digit s = true ->
  String.length s = 3%nat \/ String.length s = 6%nat ->
  let code t := if hash then String "#" t else t in
  str_to_color Colour_named (code (Py.lower s)) w
  = str_to_color Colour_named (code s) w.
Proof.
  intros Hs Hlen code. subst code. cbv beta.
  assert (Hls : Py.all Py.is_hex_digit (Py.lower s) = true).
  { apply all_map; [| exact Hs]. intros c Hc. apply (hex_digit_facts c Hc). }
  assert (Hll : String.length (Py.lower s) = String.length s)
    by apply length_map.
  pose proof (str_to_color_hex Colour_named hash s w Hs) as H1.
  pose proof (str_to_color_hex Colour_named hash (Py.lower s) w Hls) as H2.
  cbv zeta in H1, H2. rewrite Hll in H2.
  destruct Hlen as [Hlen|Hlen]; rewrite Hlen in H1, H2; cbn [Nat.eqb] in H1, H2.
  - rewrite H1, H2.
    + unfold Py.lower. rewrite double_chars_map. fold (Py.lower (Py.double_chars s)).
      rewrite hex_number_lower; [reflexivity |]. now apply all_double_chars.
    + now rewrite length_double_chars, Hll, Hlen.
    + now rewrite length_double_chars, Hlen.
  - rewrite H1, H2 by congruence. now rewrite hex_number_lower.
Qed.

(** A three-digit code gives each of the red, green and blue bytes 17
    times its digit: for the digits with values [x], [y], [z] the colour
    is [17x * 65536 + 17y * 256 + 17z]. *)
Theorem str_to_color_three_digits (hash : bool) (a b c : ascii) (x y z : Z)
  (w : World) :
  Py.hex_digit_value a = Some x ->
  Py.hex_digit_value b = Some y ->
  Py.hex_digit_value c = Some z ->
  let s := String a (String b (String c "")) in
  str_to_color Colour_named (if hash then String "#" s else s) w
  = (Ok (mkColour (17 * x * 65536 + 17 * y * 256 + 17 * z)), w)
  /\ 0 <= 17 * x <= 255 /\ 0 <= 17 * y <= 255 /\ 0 <= 17 * z <= 255.
Proof.
  intros Ha Hb Hc s.
  pose proof (hex_digit_value_range a x Ha).
  pose proof (hex_digit_value_range b y Hb).
  pose proof (hex_digit_value_range c z Hc).
  split; [| lia].
  assert (Hs : Py.all Py.is_hex_digit s = true).
  { subst s. cbn [Py.all]. unfold Py.is_hex_digit. now rewrite Ha, Hb, Hc. }
  pose proof (str_to_color_hex Colour_named hash s w Hs) as H3.
  cbv zeta in H3. rewrite H3 by reflexivity.
  subst s. cbn [String.length Nat.eqb Py.double_chars hex_number].
  rewrite Ha, Hb, Hc.
  change (default 0 (Some x)) with x. change (default 0 (Some y)) with y.
  change (default 0 (Some z)) with z.
  do 2 f_equal.
  change (16 ^ Z.of_nat 5) with 1048576. change (16 ^ Z.of_nat 4) with 65536.
  change (16 ^ Z.of_nat 3) with 4096. change (16 ^ Z.of_nat 2) with 256.
  change (16 ^ Z.of_nat 1) with 16. change (16 ^ Z.of_nat 0) with 1.
  f_equal. lia.
Qed.

End ResolverMore.

Lemma str_to_color_ignores_padding_witness :
  Py.all Py.isspace "  " = true /\ Py.all Py.isspace " " = true
  /\ str_to_color sample_palette "  #abc " ready
     = str_to_color sample_palette "#abc" ready.
Proof.
  split; [reflexivity |]. split; [reflexivity |].
  exact (str_to_color_ignores_padding sample_palette "  " "#abc" " " ready
           eq_refl eq_refl).
Defined.

Lemma str_to_color_hex_case_witness :
  Py.all Py.is_hex_digit "AbC" = true
  /\ (String.length "AbC" = 3%nat \/ String.length "AbC" = 6%nat)
  /\ str_to_color sample_palette "#abc" ready
     = str_to_color sample_palette "#AbC" ready.
Proof.
  split; [reflexivity |]. split; [left; reflexivity |].
  exact (str_to_color_hex_case sample_palette true "AbC" ready eq_refl
           (or_introl eq_refl)).
Defined.

Lemma str_to_color_three_digits_witness :
  Py.hex_digit_value "A" = Some 10
  /\ Py.hex_digit_value "0" = Some 0
  /\ Py.hex_digit_value "f" = Some 15
  /\ str_to_color sample_palette "#A0f" ready = (Ok (mkColour 11141375), ready).
Proof.
  split; [reflexivity |]. split; [reflexivity |]. split; [reflexivity |].
  apply (str_to_color_three_digits sample_palette true "A" "0" "f" 10 0 15 ready
           eq_refl eq_refl eq_refl).
Defined.

(** ** The size of what [int(s, 16)] returns *)

Lemma length_skip_c_spaces s :
  (String.length (Py.skip_c_spaces s) <= String.length s)%nat.
Proof.
  induction s as [|c s IH]; [reflexivity |].
  cbn [Py.skip_c_spaces]. destruct (Py.c_isspace c); cbn [String.length]; lia.
Qed.

Lemma read_sign_length s :
  (fst (Py.read_sign s) = 1
   /\ (String.length (snd (Py.read_sign s)) <= String.length s)%nat)
  \/ (fst (Py.read_sign s) = -1
      /\ (S (String.length (snd (Py.read_sign s))) <= String.length s)%nat).
Proof.
  destruct s as [|c s]; [left; split; reflexivity |].
  cbn [Py.read_sign]. destruct (Py.is_char "+" c).
  - left. cbn. split; [reflexivity | lia].
  - destruct (Py.is_char "-" c).
    + right. cbn. split; [reflexivity | lia].
    + left. cbn. split; [reflexivity | lia].
Qed.

Lemma length_skip_prefix16 s :
  (String.length (Py.skip_prefix16 s) <= String.length s)%nat.
Proof.
  destruct s as [|c [|x s]]; try reflexivity.
  cbn [Py.skip_prefix16]. destruct (_ && _); [| reflexivity].
  destruct s as [|u s]; cbn [String.length]; [lia |].
  destruct (Py.is_underscore u); cbn [String.length]; lia.
Qed.

Lemma length_to_ascii_buffer s :
  (String.length (Py.to_ascii_buffer s) <= String.length s)%nat.
Proof.
  induction s as [|c s IH]; [reflexivity |].
  cbn [Py.to_ascii_buffer].
  destruct (_ <? _)%N; [cbn [String.length]; lia |].
  destruct (Py.isspace c); cbn [String.length]; lia.
Qed.

(** The digit loop reads at most as many digits as the buffer has
    characters, and each digit multiplies the bound by 16. *)
Lemma scan_digits_bound s :
  forall prev acc n v n' rest,
    0 <= acc ->
    Py.scan_digits s prev acc n = Some (v, n', rest) ->
    exists k, (k <= String.length s)%nat
              /\ 0 <= v < (acc + 1) * 16 ^ Z.of_nat k.
Proof.
  induction s as [|c s IH]; intros prev acc n v n' rest Hacc H.
  - cbn in H. destruct prev; [discriminate |]. injection H as <- _ _.
    exists 0%nat. cbn. split; lia.
  - cbn [Py.scan_digits] in H. destruct (Py.is_underscore c).
    + destruct prev; [discriminate |].
      destruct (IH _ _ _ _ _ _ Hacc H) as (k & Hk & Hv).
      exists k. cbn [String.length]. split; [lia | exact Hv].
    + destruct (Py.hex_digit_value c) as [d|] eqn:Hd.
      * pose proof (hex_digit_value_range c d Hd) as Hr.
        assert (Hacc' : 0 <= 16 * acc + d) by lia.
        destruct (IH _ _ _ _ _ _ Hacc' H) as (k & Hk & Hv).
        exists (S k). cbn [String.length]. split; [lia |].
        rewrite Nat2Z.inj_succ, Z.pow_succ_r by lia.
        set (P := 16 ^ Z.of_nat k) in *.
        assert (0 < P) by (apply Z.pow_pos_nonneg; lia).
        assert ((16 * acc + d + 1) * P <= (16 * acc + 16) * P)
          by (apply Z.mul_le_mono_nonneg_r; lia).
        replace ((acc + 1) * (16 * P)) with ((16 * acc + 16) * P) by ring.
        lia.
      * destruct prev; [discriminate |]. injection H as <- _ _.
        exists 0%nat. cbn. split; lia.
Qed.

Lemma pow16_mono (a b : nat) : (a <= b)%nat -> 16 ^ Z.of_nat a <= 16 ^ Z.of_nat b.
Proof. intros H. apply Z.pow_le_mono_r; lia. Qed.

Lemma long_from_string16_bound buf r n :
  Py.long_from_string16 buf = Some r ->
  (String.length buf <= S n)%nat ->
  - 16 ^ Z.of_nat n < r < 16 ^ Z.of_nat (S n).
Proof.
  intros H Hlen. unfold Py.long_from_string16 in H.
  pose proof (length_skip_c_spaces buf) as L0.
  pose proof (read_sign_length (Py.skip_c_spaces buf)) as L1.
  destruct (Py.read_sign (Py.skip_c_spaces buf)) as [sign s1].
  cbn [fst snd] in L1.
  pose proof (length_skip_prefix16 s1) as L2.
  destruct (Py.skip_prefix16 s1) as [|u s2] eqn:Hs2; [discriminate |].
  destruct (Py.is_underscore u); [discriminate |].
  destruct (Py.scan_digits (String u s2) false 0 0) as [[[v digits] rest]|] eqn:Hscan;
    [| discriminate].
  destruct digits; [discriminate |].
  destruct (Py.skip_c_spaces rest); [| discriminate].
  injection H as <-.
  destruct (scan_digits_bound _ _ _ _ _ _ _ (Z.le_refl 0) Hscan) as (k & Hk & Hv).
  rewrite Z.add_0_l, Z.mul_1_l in Hv.
  assert (0 < 16 ^ Z.of_nat n) by (apply Z.pow_pos_nonneg; lia).
  assert (0 < 16 ^ Z.of_nat (S n)) by (apply Z.pow_pos_nonneg; lia).
  destruct L1 as [[-> L1]|[-> L1]].
  - pose proof (pow16_mono k (S n) ltac:(lia)). lia.
  - pose proof (pow16_mono k n ltac:(lia)). lia.
Qed.

Lemma int16_bound s r n :
  Py.int16 s = Some r -> (String.length s <= S n)%nat ->
  - 16 ^ Z.of_nat n < r < 16 ^ Z.of_nat (S n).
Proof.
  unfold Py.int16. intros H Hlen. destruct (Py.is_ascii s).
  - now apply (long_from_string16_bound s).
  - apply (long_from_string16_bound _ _ _ H).
    pose proof (length_to_ascii_buffer s). lia.
Qed.

Section ResolverOutcome.

Variable Colour_named : string -> Colour.

(** With the log sink set up, [str_to_color] ends in one of four ways,
    for every string.  For a known colour name that [discord.Colour]
    defines: the named colour, without a record.  For a known colour name
    that [discord.Colour] does not define: the AttributeError of the
    [getattr], without a record.  Otherwise: the colour whose value
    [int(., 16)] read from the hex candidate, without a record, and this
    value lies strictly between -16^5 and 16^6 (a sign leaves room for
    five digits); or the blurple colour, with exactly one WARNING
    record. *)
Theorem str_to_color_outcome (s : string) (w : World) (lg : logger_ref) :
  logger w = Some lg ->
  (Py.lower (Py.strip s) ∈ known_colors
   /\ Colour_hasattr (Py.lower (Py.strip s)) = true
   /\ str_to_color Colour_named s w
      = (Ok (Colour_named (Py.lower (Py.strip s))), w))
  \/ (Py.lower (Py.strip s) ∈ known_colors
      /\ Colour_hasattr (Py.lower (Py.strip s)) = false
      /\ str_to_color Colour_named s w
         = (Raise (Exn AttributeError
                     ("type object 'Colour' has no attribute '"
                        +:+ Py.lower (Py.strip s) +:+ "'")), w))
  \/ ((Py.lower (Py.strip s) ∉ known_colors)
      /\ exists v,
        Py.int16 (hex_candidate s) = Some v
        /\ -1048576 < v < 16777216
        /\ str_to_color Colour_named s w = (Ok (mkColour v), w))
  \/ ((Py.lower (Py.strip s) ∉ known_colors)
      /\ str_to_color Colour_named s w
         = (Ok (Colour_named "blurple"),
            add_record
              (mkRecord lg WARNING (invalid_color_warning (hex_candidate s)) false)
              w)).
Proof.
  intros Hlg.
  destruct (decide (Py.lower (Py.strip s) ∈ known_colors)) as [Hin|Hn].
  - destruct (Colour_hasattr (Py.lower (Py.strip s))) eqn:Ha.
    + left. split; [exact Hin |]. split; [reflexivity |].
      now apply str_to_color_named.
    + right. left. split; [exact Hin |]. split; [reflexivity |].
      now apply str_to_color_no_attribute.
  - right. right. rewrite (str_to_color_not_named Colour_named s w Hn).
    destruct (String.length (hex_candidate s) =? 6)%nat eqn:Hlen.
    + destruct (Py.int16 (hex_candidate s)) as [v|] eqn:Hv.
      * left. split; [exact Hn |].
        exists v. split; [reflexivity |]. split; [| reflexivity].
        apply Nat.eqb_eq in Hlen.
        apply (int16_bound _ _ 5%nat Hv). lia.
      * right. split; [exact Hn |]. unfold bind.
        now rewrite (warning_Some _ _ _ Hlg).
    + right. split; [exact Hn |]. unfold bind.
      now rewrite (warning_Some _ _ _ Hlg).
Qed.

(** Before [setup_logger] has run, a string that is neither a known
    colour name nor accepted by the hex branch does not give the default
    colour: [str_to_color] raises the guard's RuntimeError. *)
Theorem str_to_color_before_setup (s : string) (w : World) :
  logger w = None ->
  Py.lower (Py.strip s) ∉ known_colors ->
  String.length (hex_candidate s) <> 6%nat \/ Py.int16 (hex_candidate s) = None ->
  str_to_color Colour_named s w = (Raise not_set_up, w).
Proof.
  intros Hlg Hn Hc. rewrite (str_to_color_not_named _ _ _ Hn).
  assert (E : (if (String.length (hex_candidate s) =? 6)%nat
               then Py.int16 (hex_candidate s) else None) = None).
  { destruct Hc as [Hc|Hc].
    - apply Nat.eqb_neq in Hc. now rewrite Hc.
    - rewrite Hc. now destruct (_ =? _)%nat. }
  rewrite E. unfold bind, warning.
  now rewrite (require_logger_None _ _ _ Hlg).
Qed.

End ResolverOutcome.

Lemma str_to_color_outcome_witness :
  logger ready = Some (Named "DungeonBot")
  /\ exists v, Py.int16 (hex_candidate "-abcde") = Some v /\ -1048576 < v < 0.
Proof.
  split; [reflexivity |].
  destruct (str_to_color_outcome sample_palette "-abcde" ready (Named "DungeonBot")
              eq_refl) as [[Hin _]|[[Hin _]|[(_ & v & Hv & Hb & _)|[_ Hd]]]].
  - exfalso. revert Hin. apply not_known_colors. reflexivity.
  - exfalso. revert Hin. apply not_known_colors. reflexivity.
  - exists v. split; [exact Hv |]. vm_compute in Hv. injection Hv as <-. lia.
  - exfalso. vm_compute in Hd. discriminate Hd.
Defined.

Lemma str_to_color_before_setup_witness :
  logger initial = None
  /\ (Py.lower (Py.strip "zz") ∉ known_colors)
  /\ String.length (hex_candidate "zz") <> 6%nat
  /\ str_to_color sample_palette "zz" initial = (Raise not_set_up, initial).
Proof.
  assert (Hn : Py.lower (Py.strip "zz") ∉ known_colors)
    by (apply not_known_colors; reflexivity).
  assert (Hl : String.length (hex_candidate "zz") <> 6%nat) by discriminate.
  split; [reflexivity |]. split; [exact Hn |]. split; [exact Hl |].
  exact (str_to_color_before_setup sample_palette "zz" initial eq_refl Hn
           (or_introl Hl)).
Defined.

(* ===================================================================== *)
(** * Further properties of utils.py *)
(* ===================================================================== *)

Section ViewsMore.

Import utils.

Context {ViewObj : Type} `{EqDecision ViewObj} {Class : Type}.
Variable type_of : ViewObj -> Class.
Variable issubclass : Class -> Class -> bool.
Variable str_of_types : ViewTypes (Class := Class) -> string.

Lemma filter_none (P : ViewObj -> Prop) `{!forall x, Decision (P x)} l :
  Forall (fun x => ~ P x) l -> filter P l = [].
Proof.
  induction 1 as [|a l Ha _ IH]; [reflexivity |].
  now rewrite filter_cons_False.
Qed.

(** When no view of the list is an instance of the view types,
    [clear_views] leaves the list as it is and reports 0 removed views;
    this is so for every list when the view types are the empty tuple. *)
Theorem clear_views_no_match
  (view_types : ViewTypes) (views : list ViewObj) (w : World) (lg : logger_ref) :
  logger w = Some lg ->
  let done :=
    (Ok tt, views,
     add_record
       (mkRecord lg INFO
          ("Removed 0 persistent views of types " +:+ str_of_types view_types)
          false) w) in
  (Forall (fun v => isinstance type_of issubclass v view_types = false) views ->
   clear_views type_of issubclass str_of_types (Some view_types) views w = done)
  /\ (view_types = Tuple [] ->
      clear_views type_of issubclass str_of_types (Some view_types) views w = done).
Proof.
  intros Hlg done.
  assert (Hgen :
    Forall (fun v => isinstance type_of issubclass v view_types = false) views ->
    clear_views type_of issubclass str_of_types (Some view_types) views w = done).
  { intros Hnone. unfold clear_views, persistent_views.
    rewrite remove_all_filter.
    assert (E1 : filter (fun v => isinstance type_of issubclass v view_types = true)
                   views = []).
    { apply filter_none. eapply Forall_impl; [exact Hnone |].
      intros v Hv. cbv beta in Hv. rewrite Hv. discriminate. }
    rewrite E1. cbn [length]. now rewrite (info_Some _ _ _ Hlg). }
  split; [exact Hgen |].
  intros ->. apply Hgen. apply Forall_forall. intros v _. reflexivity.
Qed.

(** A second call with the same view types does what the first did.
    The bot stores after [clear_views] the views it stored before, so a
    second call finds the same matching views and reports the same number
    of removed views again. *)
Theorem clear_views_again
  (view_types : ViewTypes) (views : list ViewObj) (w w2 : World)
  (lg : logger_ref) :
  logger w = Some lg -> logger w2 = Some lg ->
  let left_over :=
    snd (fst (clear_views type_of issubclass str_of_types (Some view_types) views w)) in
  let matching :=
    filter (fun v => isinstance type_of issubclass v view_types = true) views in
  left_over = views
  /\ clear_views type_of issubclass str_of_types (Some view_types) left_over w2
     = (Ok tt, views,
        add_record
          (mkRecord lg INFO
             ("Removed " +:+ Py.str_of_nat (length matching)
                +:+ " persistent views of types " +:+ str_of_types view_types)
             false) w2).
Proof.
  intros Hlg Hlg2 left_over matching.
  assert (E : left_over = views).
  { subst left_over. unfold clear_views, persistent_views.
    rewrite remove_all_filter. now rewrite (info_Some _ _ _ Hlg). }
  split; [exact E |]. rewrite E.
  unfold clear_views, persistent_views. rewrite remove_all_filter.
  fold matching. now rewrite (info_Some _ _ _ Hlg2).
Qed.

(** Before [setup_logger] has run, [clear_views] raises the guard's
    RuntimeError, without view types and with them, and the bot stores
    the views it stored before the call. *)
Theorem clear_views_before_setup (views : list ViewObj) (w : World) :
  logger w = None ->
  clear_views type_of issubclass str_of_types None views w
  = (Raise not_set_up, views, w)
  /\ forall view_types,
      clear_views type_of issubclass str_of_types (Some view_types) views w
      = (Raise not_set_up, views, w).
Proof.
  intros Hlg. split.
  - unfold clear_views, warning. now rewrite (require_logger_None _ _ _ Hlg).
  - intros view_types. unfold clear_views, persistent_views.
    rewrite remove_all_filter.
    unfold info. now rewrite (require_logger_None _ _ _ Hlg).
Qed.

End ViewsMore.

Lemma clear_views_no_match_witness :
  logger ready = Some (Named "DungeonBot")
  /\ utils.clear_views (fun v : nat => if Nat.even v then "RoleView" else "TicketView")
       (fun a b : string => bool_decide (a = b))
       (fun _ => "()")
       (Some (utils.Tuple [])) [1; 2; 3]%nat ready
     = (Ok tt, [1; 2; 3]%nat,
        add_record
          (mkRecord (Named "DungeonBot") INFO
             "Removed 0 persistent views of types ()" false) ready).
Proof.
  split; [reflexivity |].
  apply (clear_views_no_match
           (fun v : nat => if Nat.even v then "RoleView" else "TicketView")
           (fun a b : string => bool_decide (a = b)) (fun _ => "()")
           (utils.Tuple []) [1; 2; 3]%nat ready (Named "DungeonBot") eq_refl).
  reflexivity.
Defined.

Lemma clear_views_again_witness :
  logger ready = Some (Named "DungeonBot")
  /\ utils.clear_views (fun v : nat => if Nat.even v then "RoleView" else "TicketView")
       (fun a b : string => bool_decide (a = b))
       (fun _ => "<class 'RoleView'>")
       (Some (utils.Single "RoleView")) [1; 2; 3; 4]%nat ready
     = (Ok tt, [1; 2; 3; 4]%nat,
        add_record
          (mkRecord (Named "DungeonBot") INFO
             "Removed 2 persistent views of types <class 'RoleView'>" false) ready).
Proof.
  split; [reflexivity |].
  destruct (clear_views_again
              (fun v : nat => if Nat.even v then "RoleView" else "TicketView")
              (fun a b : string => bool_decide (a = b))
              (fun _ => "<class 'RoleView'>")
              (utils.Single "RoleView") [1; 2; 3; 4]%nat ready ready
              (Named "DungeonBot") eq_refl eq_refl) as [E H].
  rewrite E in H. exact H.
Defined.

Lemma clear_views_before_setup_witness :
  logger initial = None
  /\ utils.clear_views (fun v : nat => if Nat.even v then "RoleView" else "TicketView")
       (fun a b : string => bool_decide (a = b))
       (fun _ => "<class 'RoleView'>")
       (Some (utils.Single "RoleView")) [1; 2; 3; 4]%nat initial
     = (Raise not_set_up, [1; 2; 3; 4]%nat, initial).
Proof.
  split; [reflexivity |].
  destruct (clear_views_before_setup
              (fun v : nat => if Nat.even v then "RoleView" else "TicketView")
              (fun a b : string => bool_decide (a = b))
              (fun _ => "<class 'RoleView'>")
              [1; 2; 3; 4]%nat initial eq_refl) as [_ H].
  rewrite (H (utils.Single "RoleView")). reflexivity.
Defined.

(* ===================================================================== *)
(** * Further properties of log.py: the console formatter *)
(* ===================================================================== *)

Lemma length_append (a b : string) :
  String.length (a +:+ b) = (String.length a + String.length b)%nat.
Proof.
  induction a as [|c a IH]; [reflexivity |].
  rewrite append_cons. cbn [String.length]. now rewrite IH.
Qed.

Lemma length_spaces n : String.length (ColorFormatter.spaces n) = n.
Proof. induction n as [|n IH]; cbn; [reflexivity | now rewrite IH]. Qed.

Lemma append_empty_r (a : string) : a +:+ "" = a.
Proof.
  induction a as [|c a IH]; [reflexivity |].
  rewrite append_cons. now rewrite IH.
Qed.

(** Padding never cuts: the result has the width asked for, or the length
    of the string when that is more. *)
Lemma length_ljust s width :
  String.length (ColorFormatter.ljust s width) = Nat.max width (String.length s).
Proof.
  unfold ColorFormatter.ljust. rewrite length_append, length_spaces. lia.
Qed.

Lemma ljust_long s width :
  (width <= String.length s)%nat -> ColorFormatter.ljust s width = s.
Proof.
  intros H. unfold ColorFormatter.ljust.
  replace (width - String.length s)%nat with 0%nat by lia.
  apply append_empty_r.
Qed.

(** No level name with a colour starts with the escape character. *)
Lemma COLORS_escape s :
  ColorFormatter.COLORS !! String ColorFormatter.ESC s = None.
Proof.
  destruct (ColorFormatter.COLORS !! String ColorFormatter.ESC s) as [v|] eqn:H;
    [| reflexivity].
  unfold ColorFormatter.COLORS in H. apply elem_of_list_to_map_2 in H.
  repeat (apply elem_of_cons in H as [H|H]; [discriminate H |]).
  now apply elem_of_nil in H.
Qed.

Section FormatFacts.

Import ColorFormatter.

Variable super_format : LogRecord -> string.

(** [format] changes the record it formats, so formatting is not
    repeatable.  Run again on the record a first call has left (as for a
    second handler with this formatter, or for a handler reached later by
    the same record), it finds no colour for the styled level name and
    pads nothing: it wraps the level name in the bold and reset sequences
    once more, 8 characters longer, and the logger name in the purple and
    reset sequences once more, 9 characters longer, and renders that. *)
Theorem format_again_wraps_again (record : LogRecord) :
  let r1 := snd (format super_format record) in
  let r2 := snd (format super_format r1) in
  levelname r2 = BOLD +:+ levelname r1 +:+ RESET
  /\ name r2 = PURPLE +:+ name r1 +:+ RESET
  /\ String.length (levelname r2) = (String.length (levelname r1) + 8)%nat
  /\ String.length (name r2) = (String.length (name r1) + 9)%nat
  /\ msg r2 = msg record
  /\ fst (format super_format r1) = super_format r2.
Proof.
  intros r1 r2.
  assert (E1 : levelname r1
               = String ESC ("[1m" +:+ default "" (COLORS !! levelname record)
                               +:+ ljust (levelname record) 8 +:+ RESET))
    by reflexivity.
  assert (Hlong : (8 <= String.length (levelname r1))%nat).
  { subst r1. cbn [format snd levelname]. rewrite !length_append, length_ljust.
    cbn [BOLD RESET String.length]. lia. }
  assert (E2 : levelname r2 = BOLD +:+ levelname r1 +:+ RESET).
  { subst r2. cbn [format snd levelname]. rewrite E1 at 1 2.
    rewrite COLORS_escape. cbn [default from_option id].
    rewrite <- E1. rewrite append_nil. now rewrite (ljust_long _ _ Hlong). }
  assert (E3 : name r2 = PURPLE +:+ name r1 +:+ RESET) by reflexivity.
  split; [exact E2 |]. split; [exact E3 |].
  split; [rewrite E2, !length_append; cbn [BOLD RESET String.length]; lia |].
  split; [rewrite E3, !length_append; cbn [PURPLE RESET String.length]; lia |].
  split; reflexivity.
Qed.

End FormatFacts.

(* ===================================================================== *)
(** * Further properties of log.py: a send that succeeds *)
(* ===================================================================== *)

(** With the log sink set up, when the rate limiter's [safe_send] returns
    a value, [safe_send_message] returns that very value, after exactly
    one request, and hands the logger exactly one record, at level INFO
    and without stack, that names the channel. *)
Theorem safe_send_message_delivers
  (remote : list Call -> Call -> outcome (option handle))
  channel content embed view file (w : World) (lg : logger_ref)
  (v : option handle) :
  logger w = Some lg ->
  remote (calls w) (safe_send channel content embed view file) = Ok v ->
  exists w',
    safe_send_message remote channel content embed view file w = (Ok v, w')
    /\ calls w' = calls w ++ [safe_send channel content embed view file]
    /\ records w'
       = records w
         ++ [mkRecord lg INFO ("Message sent in " +:+ channel_name channel) false].
Proof.
  intros Hlg Hr. eexists. split.
  - apply (safe_send_message_Ok remote _ _ _ _ _ _ _ _ Hlg Hr).
  - split; reflexivity.
Qed.

Lemma safe_send_message_delivers_witness :
  logger ready = Some (Named "DungeonBot")
  /\ answers (calls ready) (safe_send sample_channel (Some "hello") None None None)
     = Ok (Some 7%nat)
  /\ exists w',
      safe_send_message answers sample_channel (Some "hello") None None None ready
      = (Ok (Some 7%nat), w')
      /\ records w'
         = [mkRecord (Named "DungeonBot") INFO "Message sent in general" false].
Proof.
  split; [reflexivity |]. split; [reflexivity |].
  destruct (safe_send_message_delivers answers sample_channel (Some "hello")
              None None None ready (Named "DungeonBot") (Some 7%nat)
              eq_refl eq_refl) as (w' & Hrun & _ & Hrec).
  exists w'. split; [exact Hrun |]. rewrite Hrec. reflexivity.
Defined.
